(** * Inventory file manager: lib/filesystem.py

    A shallow embedding of [lib/filesystem.py] (locating, loading, backing up
    and saving the JSON inventory of a deployment) together with the part of
    the Python runtime the module calls into: [os.path], [open], [tarfile],
    [json], [copy], [datetime] and [logging].

    Conventions.
    - A path is the string the program passes to the operating system; two
      paths name the same file exactly when they are the same string (no
      symbolic links, no normalisation of [//], [.] or [..]).
    - Permissions, quotas and interrupts are not modelled: an I/O call
      fails only for the structural reasons written out below (missing
      parent directory, directory in place of a file, file that is not a
      tar archive, ...).
    - Python 3 semantics is followed where Python 2 and 3 differ. *)

From Stdlib Require Import ZArith Ascii String List Decimal DecimalString.
From stdpp Require Import base option list gmap strings fin_maps.

Set Warnings "-register-all".

Local Open Scope string_scope.

(** ** Text helpers (methods of [str]) *)

Module Str.

Definition sep : ascii := "/"%char.

Definition is_sep (c : ascii) : bool := Ascii.eqb c sep.

(** [sub in s] for a single character. *)
Fixpoint contains (c : ascii) (s : string) : bool :=
  match s with
  | EmptyString => false
  | String d r => Ascii.eqb c d || contains c r
  end.

(** [s.startswith(c)] for a single character. *)
Definition startswith (c : ascii) (s : string) : bool :=
  match s with
  | EmptyString => false
  | String d _ => Ascii.eqb d c
  end.

(** [s.endswith(c)] for a single character. *)
Fixpoint endswith (c : ascii) (s : string) : bool :=
  match s with
  | EmptyString => false
  | String d EmptyString => Ascii.eqb d c
  | String _ r => endswith c r
  end.

(** [all(ch == c for ch in s)]. *)
Fixpoint all_char (c : ascii) (s : string) : bool :=
  match s with
  | EmptyString => true
  | String d r => Ascii.eqb d c && all_char c r
  end.

(** [s.rstrip(c)] for a single character. *)
Fixpoint rstrip (c : ascii) (s : string) : string :=
  match s with
  | EmptyString => EmptyString
  | String d r =>
      match rstrip c r with
      | EmptyString => if Ascii.eqb d c then EmptyString else String d EmptyString
      | r' => String d r'
      end
  end.

(** [sep.join(l)]. *)
Fixpoint join (sp : string) (l : list string) : string :=
  match l with
  | [] => ""
  | [x] => x
  | x :: r => x ++ sp ++ join sp r
  end.

(** [s.zfill(n)] for a string of digits. *)
Definition zfill (n : nat) (s : string) : string :=
  String.concat "" (repeat "0" (n - String.length s)) ++ s.

(** Decimal numeral of a natural number, as [str(n)] prints it. *)
Definition of_nat (n : nat) : string := NilEmpty.string_of_uint (Nat.to_uint n).

(** [needle in s]: [needle] occurs in [s] as a contiguous substring. *)
Definition infix (needle s : string) : Prop :=
  exists pre post, s = pre ++ needle ++ post.

End Str.

(** ** [os.path] (posixpath) *)

Module os_path.

(** [os.path.join(a, b)] for two strings. *)
Definition join (a b : string) : string :=
  if Str.startswith Str.sep b then b
  else if (String.eqb a "" || Str.endswith Str.sep a)%bool then a ++ b
  else a ++ "/" ++ b.

(** The pair [(p[:i], p[i:])] for [i = p.rfind('/') + 1]. *)
Fixpoint rsplit (p : string) : string * string :=
  match p with
  | EmptyString => (EmptyString, EmptyString)
  | String c r =>
      if Str.contains Str.sep r then
        let '(h, t) := rsplit r in (String c h, t)
      else if Str.is_sep c then (String c EmptyString, r)
      else (EmptyString, p)
  end.

(** [os.path.basename(p)]: [p[p.rfind('/') + 1:]]. *)
Definition basename (p : string) : string := snd (rsplit p).

(** [os.path.dirname(p)]: the head, with trailing slashes removed unless
    it consists of slashes only. *)
Definition dirname (p : string) : string :=
  let head := fst (rsplit p) in
  if Str.all_char Str.sep head then head else Str.rstrip Str.sep head.

(** What [expanduser] reads from the process environment: [$HOME], the
    home directory of the current uid in the password database, and the
    lookup of a user name there ([None] when Python gets [KeyError]). *)
Record environ := Environ {
  HOME : option string;
  pw_uid_dir : option string;
  pw_nam_dir : string -> option string
}.

(** [(p[:i], p[i:])] for [i = p.find('/')], or [i = len(p)] when absent. *)
Fixpoint split_first_sep (p : string) : string * string :=
  match p with
  | EmptyString => (EmptyString, EmptyString)
  | String c r =>
      if Str.is_sep c then (EmptyString, p)
      else let '(h, t) := split_first_sep r in (String c h, t)
  end.

(** [os.path.expanduser(path)]. *)
Definition expanduser (env : environ) (path : string) : string :=
  match path with
  | String "~"%char rest =>
      let '(name, tail) := split_first_sep rest in
      let userhome :=
        if String.eqb name "" then
          match HOME env with
          | Some h => Some h
          | None => pw_uid_dir env
          end
        else pw_nam_dir env name in
      match userhome with
      | None => path
      | Some h =>
          match Str.rstrip Str.sep h ++ tail with
          | EmptyString => "/"
          | s => s
          end
      end
  | _ => path
  end.

End os_path.


(** ** Python values *)

(** A Python [float]: a finite double, written [m * 2 ^ e], an infinity or
    a NaN (the decoder accepts [Infinity], [-Infinity] and [NaN]). *)
Inductive float64 : Type :=
| Finite (m e : Z)
| Infinity (negative : bool)
| NaN.

(** JSON documents, as trees: what [json.loads] computes and what two Python
    values are compared by under [==]. An object keeps its members in
    insertion order, as a [dict] does. *)
Inductive json : Type :=
| JNull
| JBool (b : bool)
| JInt (z : Z)
| JFloat (f : float64)
| JStr (s : string)
| JArr (items : list json)
| JObj (members : list (string * json)).

(** A Python value of the JSON-compatible kind. [None], booleans, numbers
    and strings are immutable and carried as they are; a list or a dict is
    an object with an identity: a reference to a cell of the heap. *)
Inductive value : Type :=
| VNone
| VBool (b : bool)
| VInt (z : Z)
| VFloat (f : float64)
| VStr (s : string)
| VRef (a : nat).

Inductive cell : Type :=
| CList (items : list value)
| CDict (items : list (string * value)).

(** [x is False]. *)
Definition is_False (x : value) : bool :=
  match x with
  | VBool false => true
  | _ => false
  end.

(** The references stored in a cell. *)
Definition cell_values (c : cell) : list value :=
  match c with
  | CList vs => vs
  | CDict kvs => map snd kvs
  end.

(** [a] is an object reachable from [v] in heap [h] (through any number of
    list items and dict values). *)
Inductive reach (h : list cell) : value -> nat -> Prop :=
| reach_here a : reach h (VRef a) a
| reach_step a c v b :
    h !! a = Some c -> In v (cell_values c) -> reach h v b -> reach h (VRef a) b.

(** Apply [f] to every element, left to right, failing at the first failure. *)
Fixpoint traverse {A B : Type} (f : A -> option B) (l : list A) : option (list B) :=
  match l with
  | [] => Some []
  | x :: r =>
      match f x with
      | None => None
      | Some y =>
          match traverse f r with
          | None => None
          | Some ys => Some (y :: ys)
          end
      end
  end.

(** The JSON tree a value unfolds to, following at most [n] nested
    references; [None] when the value is nested deeper (in particular when
    it is cyclic) or holds a dangling reference. Two values are deeply equal
    ([==]) when they unfold to the same tree. *)
Fixpoint denote (n : nat) (h : list cell) (v : value) {struct n} : option json :=
  match v with
  | VNone => Some JNull
  | VBool b => Some (JBool b)
  | VInt z => Some (JInt z)
  | VFloat f => Some (JFloat f)
  | VStr s => Some (JStr s)
  | VRef a =>
      match n with
      | 0 => None
      | S n' =>
          match h !! a with
          | None => None
          | Some (CList vs) => JArr <$> traverse (denote n' h) vs
          | Some (CDict kvs) =>
              JObj <$> traverse (fun kv => pair (fst kv) <$> denote n' h (snd kv)) kvs
          end
      end
  end.

(** The decoder's loop over the elements of an array: each is built by
    [build], left to right. *)
Fixpoint alloc_items (build : json -> list cell -> value * list cell)
  (l : list json) (h : list cell) : list value * list cell :=
  match l with
  | [] => ([], h)
  | x :: r =>
      let '(v, h1) := build x h in
      let '(vs, h2) := alloc_items build r h1 in
      (v :: vs, h2)
  end.

(** The same loop over the members of an object. *)
Fixpoint alloc_members (build : json -> list cell -> value * list cell)
  (l : list (string * json)) (h : list cell) : list (string * value) * list cell :=
  match l with
  | [] => ([], h)
  | (k, x) :: r =>
      let '(v, h1) := build x h in
      let '(kvs, h2) := alloc_members build r h1 in
      ((k, v) :: kvs, h2)
  end.

(** Building the Python objects of a JSON tree, as the decoder does: the
    elements first, then the container, each container a new object. *)
Fixpoint alloc (j : json) (h : list cell) : value * list cell :=
  match j with
  | JNull => (VNone, h)
  | JBool b => (VBool b, h)
  | JInt z => (VInt z, h)
  | JFloat f => (VFloat f, h)
  | JStr s => (VStr s, h)
  | JArr items =>
      let '(vs, h1) := alloc_items alloc items h in
      (VRef (length h1), (h1 ++ [CList vs])%list)
  | JObj members =>
      let '(kvs, h1) := alloc_members alloc members h in
      (VRef (length h1), (h1 ++ [CDict kvs])%list)
  end.

(** Induction on a JSON tree has to go through the lists it is nested in. *)
Section json_induction.

Variable P : json -> Prop.
Hypothesis Hnull : P JNull.
Hypothesis Hbool : forall b, P (JBool b).
Hypothesis Hint : forall z, P (JInt z).
Hypothesis Hfloat : forall f, P (JFloat f).
Hypothesis Hstr : forall s, P (JStr s).
Hypothesis Harr : forall items, Forall P items -> P (JArr items).
Hypothesis Hobj : forall members, Forall (fun kv => P (snd kv)) members -> P (JObj members).

(** Induction on a JSON tree, with the hypothesis for every element of an
    array and every member of an object. *)
Fixpoint json_nested_ind (j : json) : P j :=
  match j with
  | JNull => Hnull
  | JBool b => Hbool b
  | JInt z => Hint z
  | JFloat f => Hfloat f
  | JStr s => Hstr s
  | JArr items =>
      Harr items
        ((fix all (l : list json) : Forall P l :=
            match l with
            | [] => List.Forall_nil P
            | x :: r => List.Forall_cons P x r (json_nested_ind x) (all r)
            end) items)
  | JObj members =>
      Hobj members
        ((fix all (l : list (string * json)) : Forall (fun kv => P (snd kv)) l :=
            match l with
            | [] => List.Forall_nil _
            | kv :: r => List.Forall_cons _ kv r (json_nested_ind (snd kv)) (all r)
            end) members)
  end.

End json_induction.

(** ** Exceptions, the world, and the monad of a Python call *)

Inductive errno : Type := ENOENT | EISDIR | ENOTDIR.

Inductive exn : Type :=
| SystemExit (msg : string)
| TypeError (msg : string)
| ValueError (msg : string)
| OSError (code : errno) (path : string)
| ReadError (msg : string).

(** One member of a tar archive: its name in the archive and its bytes. *)
Record member : Type := Member { arcname : string; payload : list Byte.byte }.

(** What a path names: a directory, or a regular file. A regular file that
    [tarfile] reads as an archive is kept as the list of its members. *)
Inductive node : Type :=
| Dir
| File (data : list Byte.byte)
| Tar (members : list member).

(** [datetime.datetime], to the second. *)
Record datetime : Type := Datetime {
  year : nat; month : nat; day : nat; hour : nat; minute : nat; second : nat
}.

Inductive level : Type := DEBUG | INFO.

Record world : Type := World {
  fs : gmap string node;           (* the file system *)
  env : os_path.environ;           (* the process environment *)
  clock : datetime;                (* what [utcnow()] returns *)
  heap : list cell;                (* the Python objects *)
  log : list (level * string)      (* records sent to the 'osa-inventory' logger *)
}.

Definition set_fs (f : gmap string node) (w : world) : world :=
  World f (env w) (clock w) (heap w) (log w).

Definition set_heap (h : list cell) (w : world) : world :=
  World (fs w) (env w) (clock w) h (log w).

Definition add_log (r : level * string) (w : world) : world :=
  World (fs w) (env w) (clock w) (heap w) (log w ++ [r])%list.

(** How a call ends: it returns, it raises, or it leaves what is modelled
    ([Undef]: adding a directory to an archive, a file descriptor in place of
    a path, formatting a value other than a string, a boolean or [None], a
    dangling reference). *)
Inductive outcome (A : Type) : Type :=
| Ok (a : A) (w : world)
| Raise (e : exn) (w : world)
| Undef.

Arguments Ok {A} a w.
Arguments Raise {A} e w.
Arguments Undef {A}.

Definition M (A : Type) : Type := world -> outcome A.

Definition ret {A : Type} (a : A) : M A := fun w => Ok a w.

Definition raise {A : Type} (e : exn) : M A := fun w => Raise e w.

Definition undef {A : Type} : M A := fun _ => Undef.

Definition bind {A B : Type} (c : M A) (k : A -> M B) : M B :=
  fun w =>
    match c w with
    | Ok a w' => k a w'
    | Raise e w' => Raise e w'
    | Undef => Undef
    end.

Notation "'let*' x := c 'in' k" := (bind c (fun x => k))
  (at level 10, x name, c at level 100, k at level 200, only parsing).
Notation "'let*' ' pat := c 'in' k" := (bind c (fun x => match x with pat => k end))
  (at level 10, pat pattern, c at level 100, k at level 200, only parsing).
Notation "'exec' c 'in' k" := (bind c (fun _ => k))
  (at level 10, c at level 100, k at level 200, only parsing).

(** Reading and updating the world. *)
Definition gets {A : Type} (f : world -> A) : M A := fun w => Ok (f w) w.

Definition modify (f : world -> world) : M unit := fun w => Ok tt (f w).

(** ** The library calls of the module *)

(** The two library computations that are taken as given: the JSON decoder
    ([json.loads], which returns the document or the exception it raises) and
    the byte image of a tar archive (what reading an archive as a plain file
    yields). Every theorem below holds whatever they are. *)
Class Library : Type := {
  json_loads : list Byte.byte -> exn + json;
  tar_image : list member -> list Byte.byte
}.

Module builtins.

Definition dq : ascii := "034"%char.
Definition sq : ascii := "'"%char.
Definition bs : ascii := "\"%char.

Definition hex_digit (n : nat) : ascii :=
  nth n (list_ascii_of_string "0123456789abcdef") "0"%char.

(** One character of [repr(s)] inside quotes [q]. *)
Definition escape (q c : ascii) : string :=
  let n := nat_of_ascii c in
  if (Ascii.eqb c q || Ascii.eqb c bs)%bool then String bs (String c "")
  else if Nat.eqb n 9 then "\t"
  else if Nat.eqb n 10 then "\n"
  else if Nat.eqb n 13 then "\r"
  else if (Nat.ltb n 32 || Nat.eqb n 127)%bool then
    String bs (String "x" (String (hex_digit (n / 16)) (String (hex_digit (n mod 16)) "")))
  else String c "".

Fixpoint escape_all (q : ascii) (s : string) : string :=
  match s with
  | EmptyString => EmptyString
  | String c r => escape q c ++ escape_all q r
  end.

(** [repr(s)] of a string: single quotes, unless the string has a single
    quote and no double quote. *)
Definition repr (s : string) : string :=
  let q := if (Str.contains sq s && negb (Str.contains dq s))%bool then dq else sq in
  String q (escape_all q s ++ String q "").

(** [str(l)] of a list of strings. *)
Definition str_list (l : list string) : string :=
  "[" ++ Str.join ", " (map repr l) ++ "]".

(** [str(v)], for the values the module formats. *)
Definition str (v : value) : option string :=
  match v with
  | VNone => Some "None"
  | VBool true => Some "True"
  | VBool false => Some "False"
  | VStr s => Some s
  | _ => None
  end.

(** [os.fspath(v)]: the path a value stands for. *)
Definition fspath (v : value) : M string :=
  match v with
  | VStr s => ret s
  | _ => raise (TypeError "expected str, bytes or os.PathLike object")
  end.

(** [os.path.isfile(p)]: [p] names a regular file. *)
Definition isfile (f : gmap string node) (p : string) : bool :=
  match f !! p with
  | Some (File _) | Some (Tar _) => true
  | _ => false
  end.

(** Why a file cannot be created at [p], if it cannot: there must be a
    last component, and what precedes it must be a directory (the root
    and the current directory always are). *)
Definition create_error (f : gmap string node) (p : string) : option exn :=
  if String.eqb p "" then Some (OSError ENOENT p)
  else if String.eqb (os_path.basename p) "" then Some (OSError EISDIR p)
  else
    let d := os_path.dirname p in
    if Str.all_char Str.sep d then None
    else
      match f !! d with
      | Some Dir => None
      | Some _ => Some (OSError ENOTDIR p)
      | None => Some (OSError ENOENT p)
      end.

(** The bytes of the regular file at [p], if there is one. *)
Definition file_data `{Library} (f : gmap string node) (p : string)
  : option (list Byte.byte) :=
  match f !! p with
  | Some (File d) => Some d
  | Some (Tar ms) => Some (tar_image ms)
  | _ => None
  end.

(** [open(v, 'rb').read()], the file closed afterwards. *)
Definition read_rb `{Library} (v : value) : M (list Byte.byte) :=
  match v with
  | VStr p =>
      fun w =>
        match file_data (fs w) p with
        | Some d => Ok d w
        | None =>
            match fs w !! p with
            | Some _ => Raise (OSError EISDIR p) w
            | None => Raise (OSError ENOENT p) w
            end
        end
  | VBool _ | VInt _ => undef
  | _ => raise (TypeError "expected str, bytes or os.PathLike object")
  end.

(** [open(v, 'wb')]: the file is created, or emptied when it exists; the
    handle is the path. *)
Definition open_wb (v : value) : M string :=
  match v with
  | VStr p =>
      fun w =>
        match fs w !! p with
        | Some Dir => Raise (OSError EISDIR p) w
        | Some _ => Ok p (set_fs (<[p := File []]> (fs w)) w)
        | None =>
            match create_error (fs w) p with
            | Some e => Raise e w
            | None => Ok p (set_fs (<[p := File []]> (fs w)) w)
            end
        end
  | VBool _ | VInt _ => undef
  | _ => raise (TypeError "expected str, bytes or os.PathLike object")
  end.

(** [f.write(data)] on a handle opened by [open_wb]. *)
Definition write (f : string) (data : list Byte.byte) : M unit :=
  fun w =>
    match fs w !! f with
    | Some (File d) => Ok tt (set_fs (<[f := File (d ++ data)%list]> (fs w)) w)
    | _ => Undef
    end.

End builtins.

Module logging.

Definition debug (msg : string) : M unit := modify (add_log (DEBUG, msg)).
Definition info (msg : string) : M unit := modify (add_log (INFO, msg)).

End logging.

Module datetime_.

(** [datetime.datetime.utcnow()]. *)
Definition utcnow : M datetime := gets clock.

(** [t.strftime("%Y%m%d_%H%M%S")]. *)
Definition strftime (t : datetime) : string :=
  Str.zfill 4 (Str.of_nat (year t)) ++ Str.zfill 2 (Str.of_nat (month t))
  ++ Str.zfill 2 (Str.of_nat (day t)) ++ "_"
  ++ Str.zfill 2 (Str.of_nat (hour t)) ++ Str.zfill 2 (Str.of_nat (minute t))
  ++ Str.zfill 2 (Str.of_nat (second t)).

End datetime_.

Module tarfile.

(** An open [TarFile]: the archive's path and the members it holds. *)
Record TarFile : Type := Handle { name : string; members : list member }.

(** [tarfile.open(p, 'a')]: an existing archive is opened at its end, a
    file that is not an archive is refused, a missing file is created. *)
Definition open_a (p : string) : M TarFile :=
  fun w =>
    match fs w !! p with
    | Some Dir => Raise (OSError EISDIR p) w
    | Some (File _) => Raise (ReadError "not a tar archive") w
    | Some (Tar ms) => Ok (Handle p ms) w
    | None =>
        match builtins.create_error (fs w) p with
        | Some e => Raise e w
        | None => Ok (Handle p []) (set_fs (<[p := File []]> (fs w)) w)
        end
    end.

(** [tar.add(src, arcname=arc)]: the archive itself is skipped; a regular
    file becomes one member; a directory (added with all it contains) is
    not modelled. *)
Definition add `{Library} (tar : TarFile) (src arc : string) : M TarFile :=
  if String.eqb src (name tar) then ret tar
  else
    fun w =>
      match builtins.file_data (fs w) src with
      | Some d => Ok (Handle (name tar) (members tar ++ [Member arc d])%list) w
      | None =>
          match fs w !! src with
          | Some _ => Undef
          | None => Raise (OSError ENOENT src) w
          end
      end.

(** [tar.close()]: the archive on disk holds the members of the handle. *)
Definition close (tar : TarFile) : M unit :=
  modify (fun w => set_fs (<[name tar := Tar (members tar)]> (fs w)) w).

(** [with tarfile.open(p, 'a') as tar: body]: the archive is closed when
    the body returns; when the body raises, what it added is lost and the
    file stays as [open_a] left it. *)
Definition with_open_a (p : string) (body : TarFile -> M TarFile) : M unit :=
  let* tar := open_a p in
  let* tar' := body tar in
  close tar'.

End tarfile.

Module json_.

(** [json.loads(data)]: the objects of the document are built in the heap. *)
Definition loads `{Library} (data : list Byte.byte) : M value :=
  match json_loads data with
  | inl e => raise e
  | inr j => fun w => let '(v, h) := alloc j (heap w) in Ok v (set_heap h w)
  end.

End json_.

Module copy.

(** [memo]: the objects copied so far, by identity: original to copy. *)
Fixpoint memo_get (a : nat) (memo : list (nat * nat)) : option nat :=
  match memo with
  | [] => None
  | (a', b) :: r => if Nat.eqb a a' then Some b else memo_get a r
  end.

(** [d[k] = v] on the items of a dict. *)
Fixpoint setitem (k : string) (v : value) (kvs : list (string * value))
  : list (string * value) :=
  match kvs with
  | [] => [(k, v)]
  | (k', v') :: r =>
      if String.eqb k k' then (k, v) :: r else (k', v') :: setitem k v r
  end.

(** [y.append(v)] for the list object at [b]. *)
Definition list_append (b : nat) (v : value) (h : list cell) : list cell :=
  match h !! b with
  | Some (CList vs) => <[b := CList (vs ++ [v])%list]> h
  | _ => h
  end.

(** [y[k] = v] for the dict object at [b]. *)
Definition dict_setitem (b : nat) (k : string) (v : value) (h : list cell) : list cell :=
  match h !! b with
  | Some (CDict kvs) => <[b := CDict (setitem k v kvs)]> h
  | _ => h
  end.

(** [for a in x: y.append(deepcopy(a, memo))], with [rec] for [deepcopy]
    and [y] the address of the new list. *)
Fixpoint copy_items
  (rec : value -> list (nat * nat) -> list cell -> option (value * list (nat * nat) * list cell))
  (y : nat) (xs : list value) (memo : list (nat * nat)) (h : list cell)
  : option (list (nat * nat) * list cell) :=
  match xs with
  | [] => Some (memo, h)
  | x' :: r =>
      match rec x' memo h with
      | None => None
      | Some (y', memo', h') => copy_items rec y r memo' (list_append y y' h')
      end
  end.

(** [for key, value in x.items(): y[key] = deepcopy(value, memo)] (a key is
    a string, which is its own copy). *)
Fixpoint copy_members
  (rec : value -> list (nat * nat) -> list cell -> option (value * list (nat * nat) * list cell))
  (y : nat) (kvs : list (string * value)) (memo : list (nat * nat)) (h : list cell)
  : option (list (nat * nat) * list cell) :=
  match kvs with
  | [] => Some (memo, h)
  | (k, x') :: r =>
      match rec x' memo h with
      | None => None
      | Some (y', memo', h') => copy_members rec y r memo' (dict_setitem y k y' h')
      end
  end.

(** [deepcopy(x, memo)]. An immutable value is its own copy. For a list or
    a dict not yet in [memo], an empty container [y] is created and
    recorded in [memo] first, then filled with the copies of the elements,
    in order. [depth] bounds the nesting of containers being copied;
    [None] when it is exceeded or a reference dangles. *)
Fixpoint deepcopy_memo (depth : nat) (x : value) (memo : list (nat * nat))
  (h : list cell) {struct depth} : option (value * list (nat * nat) * list cell) :=
  match x with
  | VRef a =>
      match memo_get a memo with
      | Some b => Some (VRef b, memo, h)
      | None =>
          match depth with
          | 0 => None
          | S depth' =>
              let y := length h in
              match h !! a with
              | None => None
              | Some (CList xs) =>
                  match copy_items (deepcopy_memo depth') y xs
                          ((a, y) :: memo) (h ++ [CList []])%list with
                  | Some (memo', h') => Some (VRef y, memo', h')
                  | None => None
                  end
              | Some (CDict kvs) =>
                  match copy_members (deepcopy_memo depth') y kvs
                          ((a, y) :: memo) (h ++ [CDict []])%list with
                  | Some (memo', h') => Some (VRef y, memo', h')
                  | None => None
                  end
              end
          end
      end
  | _ => Some (x, memo, h)
  end.

(** [copy.deepcopy(x)]: a fresh memo. Containers under copy are nested in
    one another and pairwise distinct, so there are never more of them
    than the heap has objects. *)
Definition deepcopy (x : value) : M value :=
  fun w =>
    match deepcopy_memo (length (heap w)) x [] (heap w) with
    | Some (y, _, h) => Ok y (set_heap h w)
    | None => Undef
    end.

End copy.

(** ** The module: lib/filesystem.py *)

Section Filesystem.

Context `{Library}.

Definition INVENTORY_FILENAME : string := "openstack_inventory.json".

(** Return a list of search paths, including the standard location.
    [e] is the environment [expanduser] reads; [if suffix:] holds for a
    string that is not empty. *)
Definition _get_search_paths (e : os_path.environ)
  (preferred_path : option string) (suffix : option string) : list string :=
  let search_paths := [os_path.join "/etc" "openstack_deploy"] in
  let search_paths :=
    match preferred_path with
    | Some p => os_path.expanduser e p :: search_paths
    | None => search_paths
    end in
  match suffix with
  | Some (String _ _ as suffix) => map (fun p => os_path.join p suffix) search_paths
  | _ => search_paths
  end.

(** The [for ... else] of [file_find]: the first candidate that is a
    regular file, or the [else] branch when the list is exhausted. *)
Fixpoint first_file (f : gmap string node) (candidates : list string) : option string :=
  match candidates with
  | [] => None
  | file_candidate :: r =>
      if builtins.isfile f file_candidate then Some file_candidate
      else first_file f r
  end.

(** Return the path to a file, or [False] if no file is found. *)
Definition file_find (filename : string) (preferred_path : option string)
  (pass_exception : bool) : M value :=
  let* e := gets env in
  let search_paths := _get_search_paths e preferred_path (Some filename) in
  let* f := gets fs in
  match first_file f search_paths with
  | Some file_candidate => ret (VStr file_candidate)
  | None =>
      if negb pass_exception then
        raise (SystemExit ("No file found at: " ++ builtins.str_list search_paths))
      else ret (VBool false)
  end.

(** Return a name for a backup file based on the time. *)
Definition _get_backup_name (basename : string) : M string :=
  let* utctime := datetime_.utcnow in
  let utctime := datetime_.strftime utctime in
  ret (basename ++ "-" ++ utctime ++ ".json").

(** [os.path.join(backup_path, name)] where [backup_path] may be [None]. *)
Definition join_opt (a : option string) (b : string) : M string :=
  match a with
  | Some a => ret (os_path.join a b)
  | None => raise (TypeError "expected str, bytes or os.PathLike object, not NoneType")
  end.

(** Create a backup of all previous inventory files as a tar archive. *)
Definition _make_backup (backup_path : option string) (source_file_path : value) : M unit :=
  let* inventory_backup_file := join_opt backup_path "backup_openstack_inventory.tar" in
  exec tarfile.with_open_a inventory_backup_file (fun tar =>
    let* source := builtins.fspath source_file_path in
    let basename := os_path.basename source in
    let* backup_name := _get_backup_name basename in
    tarfile.add tar source backup_name) in
  logging.debug ("Backup written to " ++ inventory_backup_file).

(** Return a dictionary found in json format in a given file. *)
Definition load_from_json (filename : string) (preferred_path : option string)
  (pass_exception : bool) : M (value * value) :=
  let* target_file := file_find filename preferred_path pass_exception in
  let dictionary := VBool false in
  let* dictionary :=
    if negb (is_False target_file) then
      let* data := builtins.read_rb target_file in
      json_.loads data
    else ret dictionary in
  ret (dictionary, target_file).

(** ["... {}".format(v)]. *)
Definition format1 (prefix : string) (v : value) : M string :=
  match builtins.str v with
  | Some s => ret (prefix ++ s)
  | None => undef
  end.

(** Create an inventory dictionary from the given source file or a default
    inventory. If an inventory is found then a backup tarball is created
    as well. *)
Definition load_inventory (preferred_path : option string) (default_inv : value) : M value :=
  let* '(inventory, file_loaded) :=
    load_from_json INVENTORY_FILENAME preferred_path true in
  if negb (is_False inventory) then
    let* msg := format1 "Loaded existing inventory from " file_loaded in
    exec logging.debug msg in
    exec _make_backup preferred_path file_loaded in
    ret inventory
  else
    exec logging.debug "No existing inventory, created fresh skeleton." in
    let* inventory := copy.deepcopy default_inv in
    ret inventory.

(** Save an inventory dictionary. *)
Definition save_inventory (inventory_json : list Byte.byte) (save_path : string) : M unit :=
  let* inventory_file :=
    if String.eqb INVENTORY_FILENAME save_path then file_find save_path None false
    else ret (VStr (os_path.join save_path INVENTORY_FILENAME)) in
  let* f := builtins.open_wb inventory_file in
  exec builtins.write f inventory_json in
  logging.info "Inventory written".

End Filesystem.

(** ** Vocabulary of the properties *)

(** The name of the backup archive. *)
Definition ARCHIVE_NAME : string := "backup_openstack_inventory.tar".

(** The name [_get_backup_name] gives to the copy of [source] at time [t]. *)
Definition entry_name (source : string) (t : datetime) : string :=
  os_path.basename source ++ "-" ++ datetime_.strftime t ++ ".json".

(** The file [save_inventory] writes to: the standard inventory when
    [save_path] is the inventory file name, the one under [save_path]
    otherwise. *)
Definition save_target (save_path : string) : string :=
  if String.eqb INVENTORY_FILENAME save_path
  then os_path.join "/etc/openstack_deploy" INVENTORY_FILENAME
  else os_path.join save_path INVENTORY_FILENAME.

(** The world at another time. *)
Definition set_clock (t : datetime) (w : world) : world :=
  World (fs w) (env w) t (heap w) (log w).

(** A date and time that [strftime("%Y%m%d_%H%M%S")] prints in fifteen
    characters: a year of at most four digits, the other fields of at most
    two. Every [datetime] of Python is one. *)
Definition printable (t : datetime) : Prop :=
  year t < 100 * 100 /\ month t < 100 /\ day t < 100
  /\ hour t < 100 /\ minute t < 100 /\ second t < 100.

(** The number a string of decimal digits stands for. *)
Definition digits_value (s : string) : nat :=
  fold_left (fun acc c => 10 * acc + (nat_of_ascii c - 48)) (list_ascii_of_string s) 0.

(** Why [tarfile.open(p, 'a')] fails on file system [f], if it does. *)
Definition open_error (f : gmap string node) (p : string) : option exn :=
  match f !! p with
  | Some Dir => Some (OSError EISDIR p)
  | Some (File _) => Some (ReadError "not a tar archive")
  | Some (Tar _) => None
  | None => builtins.create_error f p
  end.

Section CopyInvariant.

Local Open Scope list_scope.

(** The heap at the call of [copy.deepcopy]. *)
Variable h0 : list cell.

(** [y] in heap [h] is a finished copy of [x] in [h0]: it unfolds to what
    [x] unfolds to, and it is made of new objects only, none of which is in
    [pending], the copies still being filled. *)
Definition copy_ok (pending : list nat) (x y : value) (h : list cell) : Prop :=
  (forall m j, denote m h0 x = Some j -> denote m h y = Some j)
  /\ (forall c, reach h y c -> length h0 <= c < length h /\ ~ In c pending).

(** The state of a copy under way: the old objects are untouched, and every
    entry of the memo leads to a new object that is pending or a finished
    copy. *)
Record inv (pending : list nat) (memo : list (nat * nat)) (h : list cell) : Prop := {
  inv_prefix : h0 `prefix_of` h;
  inv_pending : forall q, In q pending -> q < length h;
  inv_target : forall a b, copy.memo_get a memo = Some b -> length h0 <= b < length h;
  inv_done : forall a b, copy.memo_get a memo = Some b -> ~ In b pending ->
             copy_ok pending (VRef a) (VRef b) h
}.

(** What a call [rec x memo h] of [deepcopy] owes: given a state in order
    and an [x] that unfolds to a tree at depth [k], none of whose objects
    has a pending copy, it returns a finished copy of [x], leaves the heap
    it was given as a prefix of the new one, and adds to the memo only
    entries that lead to objects it created. *)
Definition copies (k : nat)
  (rec : value -> list (nat * nat) -> list cell -> option (value * list (nat * nat) * list cell))
  : Prop :=
  forall x j pending memo h,
    denote k h0 x = Some j ->
    inv pending memo h ->
    (forall a b, copy.memo_get a memo = Some b -> In b pending -> ~ reach h0 x a) ->
    exists y memo' h',
      rec x memo h = Some (y, memo', h')
      /\ inv pending memo' h'
      /\ h `prefix_of` h'
      /\ (forall a b, copy.memo_get a memo' = Some b ->
            copy.memo_get a memo = Some b \/ length h <= b)
      /\ copy_ok pending x y h'.

(** While the copy [y] of [a] is filled, the memo holds the entries it had
    at the call (targets below [y]), the entry of [a], and entries made
    since (targets above [y]). *)
Definition memo_shape (memo0 memo : list (nat * nat)) (a y : nat) : Prop :=
  forall a' b, copy.memo_get a' memo = Some b ->
    (b < y /\ copy.memo_get a' memo0 = Some b) \/ (b = y /\ a' = a) \/ y < b.

(** The state inside the loop that fills the copy of [a], created at the end
    of the heap [entry] of the call. *)
Record filling (pending : list nat) (memo0 : list (nat * nat)) (entry : list cell) (a : nat)
  (memo : list (nat * nat)) (h : list cell) : Prop := {
  fill_inv : inv (length entry :: pending) memo h;
  fill_shape : memo_shape memo0 memo a (length entry);
  fill_take : take (length entry) h = entry;
  fill_len : length entry < length h
}.

End CopyInvariant.

(** ** A concrete library, for running the module on examples *)

Module Concrete.

Definition is_ws (c : ascii) : bool :=
  let n := nat_of_ascii c in
  (Nat.eqb n 32 || Nat.eqb n 9 || Nat.eqb n 10 || Nat.eqb n 13)%bool.

Definition is_digit (c : ascii) : bool :=
  let n := nat_of_ascii c in (Nat.leb 48 n && Nat.leb n 57)%bool.

Fixpoint skip_ws (s : string) : string :=
  match s with
  | String c r => if is_ws c then skip_ws r else s
  | EmptyString => s
  end.

(** [s] without the prefix [p], when it has it. *)
Fixpoint strip_prefix (p s : string) : option string :=
  match p, s with
  | EmptyString, _ => Some s
  | String a p', String b s' => if Ascii.eqb a b then strip_prefix p' s' else None
  | _, _ => None
  end.

(** The characters of a string literal up to its closing quote; escape
    sequences and control characters are outside the fragment. *)
Fixpoint string_body (s : string) : option (string * string) :=
  match s with
  | EmptyString => None
  | String c r =>
      if Ascii.eqb c builtins.dq then Some (EmptyString, r)
      else if (Ascii.eqb c builtins.bs || Nat.ltb (nat_of_ascii c) 32)%bool then None
      else
        match string_body r with
        | Some (b, r') => Some (String c b, r')
        | None => None
        end
  end.

Fixpoint digits (acc : Z) (s : string) : Z * string :=
  match s with
  | String c r =>
      if is_digit c then digits (10 * acc + Z.of_nat (nat_of_ascii c - 48))%Z r
      else (acc, s)
  | EmptyString => (acc, s)
  end.

(** An optional minus sign, then [0] or a numeral that does not start with
    [0]; not followed by a fraction or an exponent. *)
Definition integer (s : string) : option (Z * string) :=
  let '(neg, s1) :=
    match s with
    | String "-"%char r => (true, r)
    | _ => (false, s)
    end in
  match s1 with
  | String c r =>
      if is_digit c then
        let '(z, rest) := if Ascii.eqb c "0" then (0%Z, r) else digits 0 s1 in
        match rest with
        | String "."%char _ | String "e"%char _ | String "E"%char _ => None
        | _ => Some (if neg then (- z)%Z else z, rest)
        end
      else None
  | EmptyString => None
  end.

(** [d[k] = j] on the members of an object under construction. *)
Fixpoint obj_set (k : string) (j : json) (ms : list (string * json))
  : list (string * json) :=
  match ms with
  | [] => [(k, j)]
  | (k', j') :: r => if String.eqb k k' then (k, j) :: r else (k', j') :: obj_set k j r
  end.

(** A value, and what follows it. *)
Fixpoint parse_value (n : nat) (s : string) {struct n} : option (json * string) :=
  match n with
  | 0 => None
  | S n' =>
      match skip_ws s with
      | String "n"%char r => pair JNull <$> strip_prefix "ull" r
      | String "t"%char r => pair (JBool true) <$> strip_prefix "rue" r
      | String "f"%char r => pair (JBool false) <$> strip_prefix "alse" r
      | String "["%char r =>
          match skip_ws r with
          | String "]"%char r' => Some (JArr [], r')
          | _ =>
              (fix items (m : nat) (acc : list json) (s : string) {struct m} :=
                 match m with
                 | 0 => None
                 | S m' =>
                     match parse_value n' s with
                     | None => None
                     | Some (j, s1) =>
                         match skip_ws s1 with
                         | String ","%char s2 => items m' (acc ++ [j])%list s2
                         | String "]"%char s2 => Some (JArr (acc ++ [j])%list, s2)
                         | _ => None
                         end
                     end
                 end) n' [] r
          end
      | String "{"%char r =>
          match skip_ws r with
          | String "}"%char r' => Some (JObj [], r')
          | _ =>
              (fix pairs (m : nat) (acc : list (string * json)) (s : string) {struct m} :=
                 match m with
                 | 0 => None
                 | S m' =>
                     match skip_ws s with
                     | String c s0 =>
                         if Ascii.eqb c builtins.dq then
                           match string_body s0 with
                           | None => None
                           | Some (k, s1) =>
                               match skip_ws s1 with
                               | String ":"%char s2 =>
                                   match parse_value n' s2 with
                                   | None => None
                                   | Some (j, s3) =>
                                       match skip_ws s3 with
                                       | String ","%char s4 => pairs m' (obj_set k j acc) s4
                                       | String "}"%char s4 => Some (JObj (obj_set k j acc), s4)
                                       | _ => None
                                       end
                                   end
                               | _ => None
                               end
                           end
                         else None
                     | EmptyString => None
                     end
                 end) n' [] r
          end
      | String c r as s' =>
          if Ascii.eqb c builtins.dq then
            match string_body r with
            | Some (b, r') => Some (JStr b, r')
            | None => None
            end
          else
            match integer s' with
            | Some (z, r') => Some (JInt z, r')
            | None => None
            end
      | EmptyString => None
      end
  end.

(** A JSON decoder for the fragment without fractions, exponents and
    escape sequences. On the texts of the fragment it answers as
    [json.loads] does; it is run on such texts only. *)
Definition loads (data : list Byte.byte) : exn + json :=
  let s := string_of_list_byte data in
  match parse_value (S (String.length s)) s with
  | Some (j, rest) =>
      match skip_ws rest with
      | EmptyString => inr j
      | _ => inl (ValueError "Extra data")
      end
  | None => inl (ValueError "Expecting value")
  end.

(** A simplified archive image: each member as its name, a zero byte and
    its bytes. *)
Definition image (ms : list member) : list Byte.byte :=
  concat (map (fun m => list_byte_of_string (arcname m) ++ [Byte.x00] ++ payload m)%list ms).

#[export] Instance library : Library := {| json_loads := loads; tar_image := image |}.

(** The bytes of a text, written with ['] for the double quote. *)
Definition bytes (s : string) : list Byte.byte :=
  map (fun b => if Byte.eqb b Byte.x27 then Byte.x22 else b) (list_byte_of_string s).

Definition env0 : os_path.environ :=
  os_path.Environ (Some "/root") (Some "/root") (fun _ => None).

(** 3 November 2026, 09:05:07 UTC. *)
Definition t0 : datetime := Datetime 2026 11 3 9 5 7.

(** A world with the given files, no Python objects and an empty log. *)
Definition world_of (files : list (string * node)) : world :=
  World (list_to_map files) env0 t0 [] [].

End Concrete.

Import Concrete.


(** * Properties *)

(** ** The library model on examples *)

Example join_etc : os_path.join "/etc" "openstack_deploy" = "/etc/openstack_deploy".
Proof. reflexivity. Qed.

Example join_absolute : os_path.join "/a" "/b/c" = "/b/c".
Proof. reflexivity. Qed.

Example join_trailing : os_path.join "/a/" "c" = "/a/c".
Proof. reflexivity. Qed.

Example basename_ex : os_path.basename "/a/b/c.json" = "c.json".
Proof. reflexivity. Qed.

Example dirname_ex : os_path.dirname "/a/b//c.json" = "/a/b".
Proof. reflexivity. Qed.

Example dirname_root : os_path.dirname "/c.json" = "/".
Proof. reflexivity. Qed.

Example dirname_rel : os_path.dirname "c.json" = "".
Proof. reflexivity. Qed.

Example zfill_ex : Str.zfill 2 (Str.of_nat 7) = "07".
Proof. reflexivity. Qed.

Example expanduser_ex :
  os_path.expanduser (os_path.Environ (Some "/root/") None (fun _ => None)) "~/inv" = "/root/inv".
Proof. reflexivity. Qed.

Example loads_obj :
  json_loads (bytes "{ 'x': 1 }") = inr (JObj [("x", JInt 1)]).
Proof. vm_compute. reflexivity. Qed.

(** ** Text and paths *)

Lemma append_cons (x : ascii) (a b : string) : String x a ++ b = String x (a ++ b).
Proof. reflexivity. Qed.

Lemma append_assoc (a b c : string) : (a ++ b) ++ c = a ++ (b ++ c).
Proof.
  induction a as [|x a IH]; [reflexivity|].
  now rewrite !append_cons, IH.
Qed.

Lemma append_nil_r (a : string) : a ++ "" = a.
Proof.
  induction a as [|x a IH]; [reflexivity|].
  now rewrite append_cons, IH.
Qed.

Lemma infix_refl (s : string) : Str.infix s s.
Proof. exists "", "". simpl. now rewrite append_nil_r. Qed.

Lemma infix_app_l (n s t : string) : Str.infix n s -> Str.infix n (s ++ t).
Proof.
  intros (pre & post & ->). exists pre, (post ++ t).
  now rewrite !append_assoc.
Qed.

Lemma infix_app_r (n s t : string) : Str.infix n s -> Str.infix n (t ++ s).
Proof.
  intros (pre & post & ->). exists (t ++ pre), post.
  now rewrite !append_assoc.
Qed.

(** Every element of a list occurs in the list joined by a separator. *)
Lemma infix_join (sp x : string) (l : list string) :
  In x l -> Str.infix x (Str.join sp l).
Proof.
  induction l as [|y l IH]; intros Hin; [destruct Hin|].
  destruct Hin as [-> | Hin].
  - destruct l; simpl; [apply infix_refl | apply infix_app_l, infix_refl].
  - destruct l as [|z l]; [destruct Hin|].
    change (Str.join sp (y :: z :: l)) with (y ++ sp ++ Str.join sp (z :: l)).
    apply infix_app_r, infix_app_r, IH, Hin.
Qed.

(** The printed form of a list of paths shows every one of them. *)
Lemma infix_str_list (x : string) (l : list string) :
  In x l -> Str.infix (builtins.repr x) (builtins.str_list l).
Proof.
  intros Hin. unfold builtins.str_list.
  apply (infix_app_r _ _ "["), infix_app_l, infix_join, in_map, Hin.
Qed.

(** ** Resolution of a file *)

Section Resolution.

Context `{Library}.

Lemma first_file_None (f : gmap string node) (l : list string) :
  first_file f l = None <-> (forall p, In p l -> builtins.isfile f p = false).
Proof.
  induction l as [|c l IH]; simpl.
  - split; [intros _ p [] | reflexivity].
  - destruct (builtins.isfile f c) eqn:E.
    + split; [discriminate|]. intros Hall. rewrite (Hall c) in E; [discriminate | now left].
    + rewrite IH. split.
      * intros Hall p [<- | Hp]; [exact E | now apply Hall].
      * intros Hall p Hp. apply Hall. now right.
Qed.

Lemma first_file_Some (f : gmap string node) (l : list string) (p : string) :
  first_file f l = Some p -> In p l /\ builtins.isfile f p = true.
Proof.
  induction l as [|c l IH]; simpl; [discriminate|].
  destruct (builtins.isfile f c) eqn:E.
  - intros [= <-]. split; [now left | exact E].
  - intros Hp. destruct (IH Hp) as [Hin Hf]. split; [now right | exact Hf].
Qed.

Lemma file_find_found filename preferred_path pass_exception (w : world) (p : string) :
  first_file (fs w) (_get_search_paths (env w) preferred_path (Some filename)) = Some p ->
  file_find filename preferred_path pass_exception w = Ok (VStr p) w.
Proof. intros Hp. unfold file_find, bind, gets. now rewrite Hp. Qed.

Lemma file_find_missing filename preferred_path pass_exception (w : world) :
  first_file (fs w) (_get_search_paths (env w) preferred_path (Some filename)) = None ->
  file_find filename preferred_path pass_exception w =
    if pass_exception then Ok (VBool false) w
    else Raise (SystemExit ("No file found at: " ++ builtins.str_list
           (_get_search_paths (env w) preferred_path (Some filename)))) w.
Proof. intros Hp. unfold file_find, bind, gets. rewrite Hp. now destruct pass_exception. Qed.

End Resolution.

(** C3. When no candidate path names a regular file, [file_find] called in
    non-strict mode ([pass_exception=True]) returns [False] and raises
    nothing; in strict mode ([pass_exception=False], the default) it raises
    [SystemExit], with a message that shows every path that was searched.
    In both cases the world is left as it was. *)
Theorem file_find_absent `{Library} (filename : string) (preferred_path : option string)
  (w : world) :
  let search_paths := _get_search_paths (env w) preferred_path (Some filename) in
  (forall p, In p search_paths -> builtins.isfile (fs w) p = false) ->
  file_find filename preferred_path true w = Ok (VBool false) w
  /\ file_find filename preferred_path false w
     = Raise (SystemExit ("No file found at: " ++ builtins.str_list search_paths)) w
  /\ (forall p, In p search_paths ->
        Str.infix (builtins.repr p) ("No file found at: " ++ builtins.str_list search_paths)).
Proof.
  intros search_paths Habsent.
  apply first_file_None in Habsent.
  split; [|split].
  - now rewrite (file_find_missing _ _ _ _ Habsent).
  - now rewrite (file_find_missing _ _ _ _ Habsent).
  - intros p Hp. apply infix_app_r, infix_str_list, Hp.
Qed.

Lemma file_find_absent_witness :
  let w := world_of [("/inv", Dir)] in
  file_find "openstack_inventory.json" (Some "/inv") true w = Ok (VBool false) w
  /\ file_find "openstack_inventory.json" (Some "/inv") false w
     = Raise (SystemExit "No file found at: ['/inv/openstack_inventory.json', '/etc/openstack_deploy/openstack_inventory.json']") w.
Proof.
  intros w.
  destruct (file_find_absent "openstack_inventory.json" (Some "/inv") w) as (H1 & H2 & _).
  - intros p [<- | [<- | []]]; reflexivity.
  - split; [exact H1 | exact H2].
Defined.

(** C4. A file name that names a regular file in the preferred directory
    resolves to that path, in either mode: the candidates are the preferred
    one then the standard one, in this order, and the first that exists is
    returned, so the standard candidate is returned only where it is the very
    same path. *)
Theorem file_find_prefers_preferred_path `{Library} (filename preferred_path : string)
  (pass_exception : bool) (w : world) :
  let preferred := os_path.join (os_path.expanduser (env w) preferred_path) filename in
  let standard := os_path.join "/etc/openstack_deploy" filename in
  filename <> "" ->
  builtins.isfile (fs w) preferred = true ->
  _get_search_paths (env w) (Some preferred_path) (Some filename) = [preferred; standard]
  /\ file_find filename (Some preferred_path) pass_exception w = Ok (VStr preferred) w
  /\ (preferred <> standard ->
      file_find filename (Some preferred_path) pass_exception w <> Ok (VStr standard) w).
Proof.
  intros preferred standard Hname Hfile.
  assert (Hpaths : _get_search_paths (env w) (Some preferred_path) (Some filename)
                   = [preferred; standard]).
  { destruct filename; [now contradiction Hname | reflexivity]. }
  assert (Hfind : file_find filename (Some preferred_path) pass_exception w
                  = Ok (VStr preferred) w).
  { apply file_find_found. rewrite Hpaths. simpl. now rewrite Hfile. }
  split; [exact Hpaths | split; [exact Hfind |]].
  intros Hne. rewrite Hfind. intros [= Heq]. now apply Hne.
Qed.

Lemma file_find_prefers_preferred_path_witness :
  let w := world_of [("/inv/openstack_inventory.json", File (bytes "{}"));
                     ("/etc/openstack_deploy/openstack_inventory.json", File (bytes "[]"))] in
  file_find "openstack_inventory.json" (Some "/inv") false w
  = Ok (VStr "/inv/openstack_inventory.json") w.
Proof.
  intros w.
  apply (file_find_prefers_preferred_path "openstack_inventory.json" "/inv" false w).
  - discriminate.
  - reflexivity.
Defined.

(** ** Values and the heap *)


Lemma traverse_mono {A B : Type} (f g : A -> option B) (l : list A) (ys : list B) :
  (forall x y, In x l -> f x = Some y -> g x = Some y) ->
  traverse f l = Some ys -> traverse g l = Some ys.
Proof.
  revert ys. induction l as [|x l IH]; intros ys Hfg; simpl; [auto|].
  destruct (f x) as [y|] eqn:Ex; [|discriminate].
  destruct (traverse f l) as [ys'|] eqn:El; [|discriminate].
  intros [= <-].
  rewrite (Hfg x y (or_introl eq_refl) Ex).
  rewrite (IH ys'); [reflexivity | | reflexivity].
  intros x' y' Hin. apply Hfg. now right.
Qed.

Lemma keyed_mono {A B : Type} (f g : A -> option B) (kv : string * A) (y : string * B) :
  (forall j, f (snd kv) = Some j -> g (snd kv) = Some j) ->
  pair (fst kv) <$> f (snd kv) = Some y -> pair (fst kv) <$> g (snd kv) = Some y.
Proof.
  intros Hfg. destruct (f (snd kv)) as [j|]; [|discriminate].
  now rewrite (Hfg j eq_refl).
Qed.

(** Unfolding a value needs no more than it was given: more fuel and a
    longer heap give the same tree. *)
Lemma denote_mono (n : nat) : forall (m : nat) (h h' : list cell) (v : value) (j : json),
  denote n h v = Some j -> n <= m -> h `prefix_of` h' -> denote m h' v = Some j.
Proof.
  induction n as [|n IH]; intros m h h' v j Hd Hle Hpre.
  - destruct v; simpl in Hd; try discriminate; destruct m; exact Hd.
  - destruct m as [|m]; [lia|].
    destruct v; simpl in Hd |- *; try exact Hd.
    destruct (h !! a) as [c|] eqn:Ea; [|discriminate].
    rewrite (prefix_lookup_Some _ _ _ _ Ea Hpre).
    destruct c as [vs|kvs].
    + destruct (traverse (denote n h) vs) as [js|] eqn:Et; [|discriminate].
      rewrite (traverse_mono _ (denote m h') _ _ (fun x y _ Hx => IH m h h' x y Hx ltac:(lia) Hpre) Et).
      exact Hd.
    + destruct (traverse (fun kv => pair (fst kv) <$> denote n h (snd kv)) kvs)
        as [js|] eqn:Et; [|discriminate].
      rewrite (traverse_mono _ (fun kv => pair (fst kv) <$> denote m h' (snd kv)) _ _
                 (fun x y _ => keyed_mono _ _ x y
                    (fun j Hj => IH m h h' (snd x) j Hj ltac:(lia) Hpre)) Et).
      exact Hd.
Qed.

(** The objects the decoder builds for a document unfold to the document,
    and the objects that were there before stay as they are. *)
Lemma alloc_denote (j : json) : forall h : list cell,
  h `prefix_of` snd (alloc j h)
  /\ exists n, denote n (snd (alloc j h)) (fst (alloc j h)) = Some j.
Proof.
  induction j as [| b | z | f | s | items IH | members IH] using json_nested_ind; intros h;
    try (split; [reflexivity | exists 0; reflexivity]).
  - assert (Hloop : forall h, h `prefix_of` snd (alloc_items alloc items h)
        /\ exists n, traverse (denote n (snd (alloc_items alloc items h)))
                       (fst (alloc_items alloc items h)) = Some items).
    { clear h. induction IH as [|x r Hx _ IHr]; intros h; simpl.
      - split; [reflexivity | exists 0; reflexivity].
      - destruct (Hx h) as (Hp1 & n1 & Hd1).
        destruct (alloc x h) as [v h1]; simpl in Hp1, Hd1.
        destruct (IHr h1) as (Hp2 & n2 & Hd2).
        destruct (alloc_items alloc r h1) as [vs h2]; simpl in Hp2, Hd2 |- *.
        split; [now transitivity h1|].
        exists (Nat.max n1 n2).
        rewrite (denote_mono _ _ _ _ _ _ Hd1 (Nat.le_max_l _ _) Hp2).
        rewrite (traverse_mono _ (denote (Nat.max n1 n2) h2) _ _
                   (fun x y _ Hx => denote_mono _ _ _ _ _ _ Hx (Nat.le_max_r _ _) (reflexivity h2)) Hd2).
        reflexivity. }
    simpl. destruct (Hloop h) as (Hp & n & Hd).
    destruct (alloc_items alloc items h) as [vs h1]; simpl in Hp, Hd |- *.
    split; [now apply prefix_app_r|].
    exists (S n). simpl. rewrite list_lookup_middle; [|reflexivity].
    rewrite (traverse_mono _ (denote n (h1 ++ [CList vs])) _ _
               (fun x y _ Hx => denote_mono _ _ _ _ _ _ Hx (le_n _) (prefix_app_r _ _ _ (reflexivity h1))) Hd).
    reflexivity.
  - assert (Hloop : forall h, h `prefix_of` snd (alloc_members alloc members h)
        /\ exists n, traverse (fun kv => pair (fst kv) <$>
                          denote n (snd (alloc_members alloc members h)) (snd kv))
                       (fst (alloc_members alloc members h)) = Some members).
    { clear h. induction IH as [|[k x] r Hx _ IHr]; intros h; simpl.
      - split; [reflexivity | exists 0; reflexivity].
      - simpl in Hx. destruct (Hx h) as (Hp1 & n1 & Hd1).
        destruct (alloc x h) as [v h1]; simpl in Hp1, Hd1.
        destruct (IHr h1) as (Hp2 & n2 & Hd2).
        destruct (alloc_members alloc r h1) as [kvs h2]; simpl in Hp2, Hd2 |- *.
        split; [now transitivity h1|].
        exists (Nat.max n1 n2).
        rewrite (denote_mono _ _ _ _ _ _ Hd1 (Nat.le_max_l _ _) Hp2). simpl.
        rewrite (traverse_mono _ (fun kv => pair (fst kv) <$> denote (Nat.max n1 n2) h2 (snd kv)) _ _
                   (fun x y _ => keyed_mono _ _ x y
                      (fun j Hj => denote_mono _ _ _ _ _ _ Hj (Nat.le_max_r _ _) (reflexivity h2))) Hd2).
        reflexivity. }
    simpl. destruct (Hloop h) as (Hp & n & Hd).
    destruct (alloc_members alloc members h) as [kvs h1]; simpl in Hp, Hd |- *.
    split; [now apply prefix_app_r|].
    exists (S n). simpl. rewrite list_lookup_middle; [|reflexivity].
    rewrite (traverse_mono _ (fun kv => pair (fst kv) <$> denote n (h1 ++ [CDict kvs]) (snd kv)) _ _
               (fun x y _ => keyed_mono _ _ x y
                  (fun j Hj => denote_mono _ _ _ _ _ _ Hj (le_n _)
                                 (prefix_app_r _ _ _ (reflexivity h1)))) Hd).
    reflexivity.
Qed.

(** ** Loading *)

Section Loading.

Context `{Library}.

Lemma isfile_file_data (f : gmap string node) (p : string) :
  builtins.isfile f p = true <-> exists data, builtins.file_data f p = Some data.
Proof.
  unfold builtins.isfile, builtins.file_data.
  destruct (f !! p) as [[| d | ms]|]; split; intros Hx;
    try discriminate; try (destruct Hx; discriminate); eauto.
Qed.

(** What [file_find] returns is the first candidate that is a file. *)
Lemma file_find_inv filename preferred_path pass_exception (w w' : world) (p : string) :
  file_find filename preferred_path pass_exception w = Ok (VStr p) w' ->
  first_file (fs w) (_get_search_paths (env w) preferred_path (Some filename)) = Some p.
Proof.
  destruct (first_file (fs w) (_get_search_paths (env w) preferred_path (Some filename)))
    as [q|] eqn:E.
  - rewrite (file_find_found _ _ _ _ _ E). now intros [= -> _].
  - rewrite (file_find_missing _ _ _ _ E). destruct pass_exception; discriminate.
Qed.

(** [load_from_json] when a file is resolved: its bytes go to the decoder. *)
Lemma load_from_json_found filename preferred_path pass_exception (w : world)
  (p : string) (data : list Byte.byte) :
  first_file (fs w) (_get_search_paths (env w) preferred_path (Some filename)) = Some p ->
  builtins.file_data (fs w) p = Some data ->
  load_from_json filename preferred_path pass_exception w =
    match json_loads data with
    | inl e => Raise e w
    | inr j => Ok (fst (alloc j (heap w)), VStr p) (set_heap (snd (alloc j (heap w))) w)
    end.
Proof.
  intros Hp Hdata. unfold load_from_json, bind.
  rewrite (file_find_found _ _ _ _ _ Hp). simpl.
  rewrite Hdata. unfold json_.loads.
  destruct (json_loads data) as [e|j]; [reflexivity|].
  unfold ret. now destruct (alloc j (heap w)).
Qed.

(** [load_from_json] when no file is resolved and the caller asked for no
    exception. *)
Lemma load_from_json_missing filename preferred_path (w : world) :
  first_file (fs w) (_get_search_paths (env w) preferred_path (Some filename)) = None ->
  load_from_json filename preferred_path true w = Ok (VBool false, VBool false) w.
Proof.
  intros Hp. unfold load_from_json, bind.
  now rewrite (file_find_missing _ _ _ _ Hp).
Qed.

(** The decoder returns [False] only for the document [false]. *)
Lemma is_False_alloc (j : json) (h : list cell) :
  is_False (fst (alloc j h)) = true <-> j = JBool false.
Proof.
  destruct j as [| [|] | | | | items | members]; simpl; try (split; [discriminate | congruence]).
  - split; reflexivity.
  - destruct (alloc_items alloc items h). simpl. split; [discriminate | congruence].
  - destruct (alloc_members alloc members h). simpl. split; [discriminate | congruence].
Qed.

End Loading.

(** C6. [load_from_json] asked for no exception ([pass_exception=True]),
    when no candidate is a file, returns the pair [(False, False)]: no data,
    no path. When a file is resolved and its bytes decode to a document,
    it returns the objects built for that document (they unfold to it)
    paired with the path of the file that was read; the file system is
    not changed. *)
Theorem load_from_json_result `{Library} (filename : string) (preferred_path : option string)
  (w : world) :
  ((forall p, In p (_get_search_paths (env w) preferred_path (Some filename)) ->
      builtins.isfile (fs w) p = false) ->
   load_from_json filename preferred_path true w = Ok (VBool false, VBool false) w)
  /\ (forall pass_exception p data j,
        file_find filename preferred_path pass_exception w = Ok (VStr p) w ->
        builtins.file_data (fs w) p = Some data ->
        json_loads data = inr j ->
        exists v w',
          load_from_json filename preferred_path pass_exception w = Ok (v, VStr p) w'
          /\ fs w' = fs w
          /\ exists n, denote n (heap w') v = Some j).
Proof.
  split.
  - intros Habsent. apply load_from_json_missing, first_file_None, Habsent.
  - intros pass_exception p data j Hfind Hdata Hjson.
    apply file_find_inv in Hfind.
    rewrite (load_from_json_found _ _ _ _ _ _ Hfind Hdata), Hjson.
    eexists _, _. split; [reflexivity|]. split; [reflexivity|].
    apply alloc_denote.
Qed.

Lemma load_from_json_result_witness :
  let w0 := world_of [("/inv", Dir)] in
  let w1 := world_of [("/inv/openstack_inventory.json", File (bytes "{'x': 1}"))] in
  load_from_json "openstack_inventory.json" (Some "/inv") true w0
    = Ok (VBool false, VBool false) w0
  /\ exists v w',
       load_from_json "openstack_inventory.json" (Some "/inv") false w1
         = Ok (v, VStr "/inv/openstack_inventory.json") w'
       /\ fs w' = fs w1
       /\ exists n, denote n (heap w') v = Some (JObj [("x", JInt 1)]).
Proof.
  intros w0 w1. split.
  - apply (load_from_json_result "openstack_inventory.json" (Some "/inv") w0).
    intros p [<- | [<- | []]]; reflexivity.
  - apply (proj2 (load_from_json_result "openstack_inventory.json" (Some "/inv") w1)
             false _ (bytes "{'x': 1}")).
    + reflexivity.
    + reflexivity.
    + vm_compute. reflexivity.
Defined.

(** C5. When the file that is resolved does not decode, the exception of the
    decoder is what [load_from_json] raises, in either mode and with the
    world as it was; and [load_inventory], which loads the inventory file
    this way, raises that same exception: it returns neither [False] nor a
    copy of the default inventory. *)
Theorem malformed_json_propagates `{Library} (filename : string)
  (preferred_path : option string) (pass_exception : bool) (w : world)
  (p : string) (data : list Byte.byte) (e : exn) :
  file_find filename preferred_path pass_exception w = Ok (VStr p) w ->
  builtins.file_data (fs w) p = Some data ->
  json_loads data = inl e ->
  (forall mode, load_from_json filename preferred_path mode w = Raise e w)
  /\ (filename = INVENTORY_FILENAME ->
      forall default_inv, load_inventory preferred_path default_inv w = Raise e w).
Proof.
  intros Hfind Hdata Hjson. apply file_find_inv in Hfind.
  assert (Hload : forall mode, load_from_json filename preferred_path mode w = Raise e w).
  { intros mode. now rewrite (load_from_json_found _ _ _ _ _ _ Hfind Hdata), Hjson. }
  split; [exact Hload|].
  intros -> default_inv. unfold load_inventory, bind. now rewrite Hload.
Qed.

Lemma malformed_json_propagates_witness :
  let w := world_of [("/inv/openstack_inventory.json", File (bytes "{'x': "))] in
  load_from_json "openstack_inventory.json" (Some "/inv") true w
    = Raise (ValueError "Expecting value") w
  /\ load_inventory (Some "/inv") VNone w = Raise (ValueError "Expecting value") w.
Proof.
  intros w.
  destruct (malformed_json_propagates "openstack_inventory.json" (Some "/inv") true w
              "/inv/openstack_inventory.json" (bytes "{'x': ") (ValueError "Expecting value"))
    as [H1 H2].
  - reflexivity.
  - reflexivity.
  - vm_compute. reflexivity.
  - split; [apply H1 | apply H2; reflexivity].
Defined.

(** ** Paths built by [os.path.join] *)

Lemma contains_app (c : ascii) (a b : string) :
  Str.contains c (a ++ b) = (Str.contains c a || Str.contains c b)%bool.
Proof.
  induction a as [|x a IH]; [reflexivity|].
  rewrite append_cons. cbn [Str.contains]. rewrite IH. now rewrite orb_assoc.
Qed.

Lemma rsplit_no_sep (b : string) :
  Str.contains Str.sep b = false -> os_path.rsplit b = ("", b).
Proof.
  destruct b as [|c b]; [reflexivity|]. cbn [Str.contains os_path.rsplit].
  intros Hb. apply orb_false_iff in Hb as [Hc Hb]. rewrite Hb.
  unfold Str.is_sep. rewrite Ascii.eqb_sym in Hc. now rewrite Hc.
Qed.

(** The last component of [a/b] is [b] when [b] has no slash. *)
Lemma rsplit_app_sep (a b : string) :
  Str.contains Str.sep b = false ->
  os_path.rsplit (a ++ String Str.sep b) = (a ++ String Str.sep "", b).
Proof.
  intros Hb. induction a as [|c a IH].
  - change ("" ++ String Str.sep b) with (String Str.sep b).
    cbn [os_path.rsplit]. rewrite Hb.
    unfold Str.is_sep. now rewrite Ascii.eqb_refl.
  - rewrite !append_cons. cbn [os_path.rsplit]. rewrite contains_app.
    cbn [Str.contains]. rewrite Ascii.eqb_refl, orb_true_l, orb_true_r. now rewrite IH.
Qed.

Lemma endswith_split (c : ascii) (a : string) :
  Str.endswith c a = true -> exists a', a = a' ++ String c "".
Proof.
  induction a as [|x a IH]; [discriminate|].
  cbn [Str.endswith]. destruct a as [|y a].
  - intros Hx. apply Ascii.eqb_eq in Hx as ->. now exists "".
  - intros Hx. destruct (IH Hx) as [a' ->]. now exists (String x a').
Qed.

Lemma startswith_contains (c : ascii) (b : string) :
  Str.contains c b = false -> Str.startswith c b = false.
Proof.
  destruct b as [|x b]; [reflexivity|]. cbn [Str.contains Str.startswith].
  intros Hb. apply orb_false_iff in Hb as [Hc _]. now rewrite Ascii.eqb_sym.
Qed.

(** [basename(join(a, b)) == b] for a name [b] without a slash. *)
Lemma basename_join (a b : string) :
  Str.contains Str.sep b = false -> os_path.basename (os_path.join a b) = b.
Proof.
  intros Hb. unfold os_path.basename, os_path.join.
  rewrite (startswith_contains _ _ Hb).
  destruct (String.eqb_spec a "") as [-> | Ha]; cbn [orb].
  - change ("" ++ b) with b. now rewrite (rsplit_no_sep _ Hb).
  - destruct (Str.endswith Str.sep a) eqn:Ea.
    + destruct (endswith_split _ _ Ea) as [a' ->].
      rewrite append_assoc. change (String Str.sep "" ++ b) with (String Str.sep b).
      now rewrite (rsplit_app_sep _ _ Hb).
    + change ("/" ++ b) with (String Str.sep b).
      now rewrite (rsplit_app_sep _ _ Hb).
Qed.

(** Joining two different slash-free names never gives the same path. *)
Lemma join_names_differ (a a' b b' : string) :
  Str.contains Str.sep b = false -> Str.contains Str.sep b' = false ->
  b <> b' -> os_path.join a b <> os_path.join a' b'.
Proof.
  intros Hb Hb' Hne Heq. apply Hne.
  rewrite <- (basename_join a b Hb), <- (basename_join a' b' Hb'). now rewrite Heq.
Qed.

(** Every candidate for the inventory is [join(c, INVENTORY_FILENAME)] for a
    directory [c] of the search list. *)
Lemma search_paths_inventory (e : os_path.environ) (preferred_path : option string)
  (p : string) :
  In p (_get_search_paths e preferred_path (Some INVENTORY_FILENAME)) ->
  exists c, p = os_path.join c INVENTORY_FILENAME.
Proof.
  unfold _get_search_paths. simpl. intros Hin.
  apply in_map_iff in Hin as (c & <- & _). now exists c.
Qed.

(** ** Backup *)

Section Backup.

Context `{Library}.


Lemma file_data_insert_ne (f : gmap string node) (a p : string) (n : node) :
  p <> a -> builtins.file_data (<[a := n]> f) p = builtins.file_data f p.
Proof. intros Hne. unfold builtins.file_data. now rewrite lookup_insert_ne. Qed.

(** A successful backup: the archive, opened or created in [backup_path],
    gains one member holding the bytes of the source. *)
Lemma make_backup_ok (backup_path source : string) (w : world)
  (ms : list member) (data : list Byte.byte) :
  let archive := os_path.join backup_path ARCHIVE_NAME in
  source <> archive ->
  (fs w !! archive = Some (Tar ms)
   \/ (fs w !! archive = None /\ builtins.create_error (fs w) archive = None /\ ms = [])) ->
  builtins.file_data (fs w) source = Some data ->
  _make_backup (Some backup_path) (VStr source) w =
    Ok tt (add_log (DEBUG, "Backup written to " ++ archive)
             (set_fs (<[archive := Tar (ms ++ [Member (entry_name source (clock w)) data])]> (fs w)) w)).
Proof.
  intros archive Hne Harch Hdata.
  apply String.eqb_neq in Hne.
  unfold _make_backup, join_opt, tarfile.with_open_a, tarfile.open_a, bind, ret.
  change (os_path.join backup_path "backup_openstack_inventory.tar") with archive.
  destruct Harch as [Ha | (Ha & Hc & ->)]; rewrite Ha.
  - cbn [builtins.fspath ret]. unfold tarfile.add. cbn [tarfile.name tarfile.members].
    unfold _get_backup_name, datetime_.utcnow, gets, bind, ret.
    rewrite Hne, Hdata. reflexivity.
  - rewrite Hc. cbn [builtins.fspath ret]. unfold tarfile.add.
    cbn [tarfile.name tarfile.members].
    unfold _get_backup_name, datetime_.utcnow, gets, bind, ret.
    rewrite Hne. cbn [fs set_fs].
    rewrite file_data_insert_ne by (now apply String.eqb_neq). rewrite Hdata.
    unfold tarfile.close, logging.debug, modify, set_fs, add_log. cbn.
    now rewrite insert_insert_eq.
Qed.

(** The inventory file that [load_inventory] resolves is never the archive. *)
Lemma inventory_is_not_archive (e : os_path.environ) (preferred_path : option string)
  (backup_path p : string) :
  In p (_get_search_paths e preferred_path (Some INVENTORY_FILENAME)) ->
  p <> os_path.join backup_path ARCHIVE_NAME /\ os_path.basename p = INVENTORY_FILENAME.
Proof.
  intros Hin. destruct (search_paths_inventory _ _ _ Hin) as [c ->]. split.
  - apply join_names_differ; [reflexivity | reflexivity | discriminate].
  - now apply basename_join.
Qed.

(** [load_inventory] when the inventory is found, decodes to something other
    than [False], and the archive can be opened under [preferred_path]. *)
Lemma load_inventory_found (preferred_path : string) (default_inv : value) (w : world)
  (p : string) (data : list Byte.byte) (j : json) (ms : list member) :
  let archive := os_path.join preferred_path ARCHIVE_NAME in
  first_file (fs w) (_get_search_paths (env w) (Some preferred_path) (Some INVENTORY_FILENAME))
    = Some p ->
  builtins.file_data (fs w) p = Some data ->
  json_loads data = inr j ->
  j <> JBool false ->
  (fs w !! archive = Some (Tar ms)
   \/ (fs w !! archive = None /\ builtins.create_error (fs w) archive = None /\ ms = [])) ->
  load_inventory (Some preferred_path) default_inv w =
    Ok (fst (alloc j (heap w)))
       (add_log (DEBUG, "Backup written to " ++ archive)
          (set_fs (<[archive := Tar (ms ++ [Member (entry_name p (clock w)) data])]> (fs w))
             (add_log (DEBUG, "Loaded existing inventory from " ++ p)
                (set_heap (snd (alloc j (heap w))) w)))).
Proof.
  intros archive Hp Hdata Hjson Hj Harch.
  unfold load_inventory, bind.
  rewrite (load_from_json_found _ _ _ _ _ _ Hp Hdata), Hjson.
  destruct (is_False (fst (alloc j (heap w)))) eqn:EF.
  { apply is_False_alloc in EF. contradiction. }
  cbn [negb format1 builtins.str ret]. unfold logging.debug at 1. unfold modify.
  destruct (first_file_Some _ _ _ Hp) as [Hin _].
  destruct (inventory_is_not_archive _ _ preferred_path _ Hin) as [Hne _].
  rewrite (make_backup_ok preferred_path p _ ms data Hne); [reflexivity | exact Harch | exact Hdata].
Qed.

End Backup.

(** C9. A backup that returns has changed nothing but the archive
    [backup_openstack_inventory.tar] of the backup directory: every other
    path names what it named before, the source file, which existed, is
    still there with the same content, and the archive holds its former
    members followed by exactly one new member with the bytes of the
    source (the archive being created when it was missing). The Python
    objects are not touched either. *)
Theorem make_backup_only_appends `{Library} (backup_path : option string) (source : string)
  (w w' : world) :
  _make_backup backup_path (VStr source) w = Ok tt w' ->
  exists d, backup_path = Some d /\
    let archive := os_path.join d ARCHIVE_NAME in
    (forall p, p <> archive -> fs w' !! p = fs w !! p)
    /\ (builtins.isfile (fs w) source = true -> fs w' !! source = fs w !! source)
    /\ (source <> archive ->
        exists ms data,
          builtins.file_data (fs w) source = Some data
          /\ (fs w !! archive = Some (Tar ms) \/ (fs w !! archive = None /\ ms = []))
          /\ fs w' !! archive = Some (Tar (ms ++ [Member (entry_name source (clock w)) data])))
    /\ heap w' = heap w.
Proof.
  destruct backup_path as [d|]; [|discriminate].
  intros Hrun. exists d. split; [reflexivity|]. intros archive.
  revert Hrun.
  unfold _make_backup, join_opt, tarfile.with_open_a, tarfile.open_a, bind, ret.
  change (os_path.join d "backup_openstack_inventory.tar") with archive.
  cbn [builtins.fspath]. unfold ret, tarfile.add, _get_backup_name, datetime_.utcnow, gets, bind, ret.
  cbn [tarfile.name tarfile.members].
  destruct (fs w !! archive) as [[| d0 | ms]|] eqn:Ea; try discriminate.
  - (* the archive exists *)
    cbn [tarfile.name tarfile.members].
    destruct (String.eqb_spec source archive) as [-> | Hne].
    + unfold tarfile.close, logging.debug, modify. intros [= <-]. cbn [fs heap set_fs add_log].
      repeat split.
      * intros p Hp. now rewrite lookup_insert_ne.
      * intros _. now rewrite lookup_insert_eq.
      * intros Hc. now contradiction Hc.
    + destruct (builtins.file_data (fs w) source) as [data|] eqn:Ed.
      * unfold tarfile.close, logging.debug, modify. intros [= <-].
        cbn [fs heap set_fs add_log tarfile.name tarfile.members].
        repeat split.
        -- intros p Hp. now rewrite lookup_insert_ne.
        -- intros _. now rewrite lookup_insert_ne.
        -- intros _. exists ms, data. split; [reflexivity|]. split; [now left|].
           now rewrite lookup_insert_eq.
      * destruct (fs w !! source); discriminate.
  - (* the archive is created *)
    destruct (builtins.create_error (fs w) archive) as [e|] eqn:Ec; [discriminate|].
    cbn [fs set_fs tarfile.name tarfile.members].
    destruct (String.eqb_spec source archive) as [-> | Hne].
    + unfold tarfile.close, logging.debug, modify. intros [= <-]. cbn [fs heap set_fs add_log].
      repeat split.
      * intros p Hp. now rewrite !lookup_insert_ne.
      * unfold builtins.isfile. now rewrite Ea.
      * intros Hc. now contradiction Hc.
    + cbn [fs set_fs]. rewrite file_data_insert_ne by exact Hne.
      destruct (builtins.file_data (fs w) source) as [data|] eqn:Ed.
      * unfold tarfile.close, logging.debug, modify. intros [= <-].
        cbn [fs heap set_fs add_log tarfile.name tarfile.members].
        repeat split.
        -- intros p Hp. now rewrite !lookup_insert_ne.
        -- intros _. now rewrite !lookup_insert_ne.
        -- intros _. exists [], data. split; [reflexivity|]. split; [now right|].
           now rewrite lookup_insert_eq.
      * rewrite lookup_insert_ne by (intros Heq; now apply Hne).
        destruct (fs w !! source); discriminate.
Qed.

Lemma make_backup_only_appends_witness :
  let source := "/inv/openstack_inventory.json" in
  let archive := "/inv/backup_openstack_inventory.tar" in
  let old := Member "openstack_inventory.json-20261102_120000.json" (bytes "{}") in
  let w := world_of [("/inv", Dir); (source, File (bytes "{'x': 1}")); (archive, Tar [old])] in
  exists w',
    _make_backup (Some "/inv") (VStr source) w = Ok tt w'
    /\ fs w' !! source = Some (File (bytes "{'x': 1}"))
    /\ fs w' !! archive
       = Some (Tar [old; Member "openstack_inventory.json-20261103_090507.json" (bytes "{'x': 1}")]).
Proof.
  intros source archive old w.
  eexists. split; [reflexivity|].
  destruct (make_backup_only_appends (Some "/inv") source w _ eq_refl)
    as (d & [= <-] & _ & Hsrc & _).
  split; [now rewrite Hsrc | reflexivity].
Defined.

(** C1 (counterexample). An inventory file exists at a search path, the
    standard one, and holds a JSON object; the preferred directory does not
    exist. The backup archive is opened under the preferred directory, so
    [load_inventory] raises the error of [tarfile.open] in place of returning
    the inventory, and no archive member is written. *)
Lemma load_inventory_existing_counterexample :
  let source := "/etc/openstack_deploy/openstack_inventory.json" in
  let w := world_of [("/etc/openstack_deploy", Dir); (source, File (bytes "{'x': 1}"))] in
  In source (_get_search_paths (env w) (Some "/nope") (Some INVENTORY_FILENAME))
  /\ builtins.isfile (fs w) source = true
  /\ exists w',
       load_inventory (Some "/nope") VNone w
         = Raise (OSError ENOENT "/nope/backup_openstack_inventory.tar") w'
       /\ fs w' = fs w.
Proof.
  intros source w. split; [right; left; reflexivity|]. split; [reflexivity|].
  eexists. split; reflexivity.
Qed.

(** C1 (amended). When [load_inventory] is given a preferred path, the
    inventory file it resolves decodes to a document other than [false], and
    the archive [backup_openstack_inventory.tar] of the preferred path is a
    tar archive or can be created, the call returns the objects of that
    document, and on return the file system differs from what it was in
    the archive only: its former members are followed by exactly one new
    member, named [openstack_inventory.json-<UTC time as YYYYMMDD_HHMMSS>.json]
    and holding the bytes of the inventory file. *)
Theorem load_inventory_existing `{Library} (preferred_path : string) (default_inv : value)
  (w : world) (p : string) (data : list Byte.byte) (j : json) (ms : list member) :
  let archive := os_path.join preferred_path ARCHIVE_NAME in
  file_find INVENTORY_FILENAME (Some preferred_path) true w = Ok (VStr p) w ->
  builtins.file_data (fs w) p = Some data ->
  json_loads data = inr j ->
  j <> JBool false ->
  (fs w !! archive = Some (Tar ms)
   \/ (fs w !! archive = None /\ builtins.create_error (fs w) archive = None /\ ms = [])) ->
  exists v w',
    load_inventory (Some preferred_path) default_inv w = Ok v w'
    /\ (exists n, denote n (heap w') v = Some j)
    /\ fs w' = <[archive := Tar (ms ++ [Member
                   (INVENTORY_FILENAME ++ "-" ++ datetime_.strftime (clock w) ++ ".json")
                   data])]> (fs w).
Proof.
  intros archive Hfind Hdata Hjson Hj Harch.
  apply file_find_inv in Hfind.
  rewrite (load_inventory_found _ default_inv _ _ _ _ ms Hfind Hdata Hjson Hj Harch).
  eexists _, _. split; [reflexivity|]. split.
  - cbn [heap add_log set_fs set_heap]. apply alloc_denote.
  - cbn [fs add_log set_fs set_heap]. unfold entry_name.
    destruct (first_file_Some _ _ _ Hfind) as [Hin _].
    destruct (inventory_is_not_archive _ _ preferred_path _ Hin) as [_ ->].
    reflexivity.
Qed.

Lemma load_inventory_existing_witness :
  let source := "/inv/openstack_inventory.json" in
  let archive := "/inv/backup_openstack_inventory.tar" in
  let w := world_of [("/inv", Dir); (source, File (bytes "{'x': 1}"))] in
  exists v w',
    load_inventory (Some "/inv") VNone w = Ok v w'
    /\ (exists n, denote n (heap w') v = Some (JObj [("x", JInt 1)]))
    /\ fs w' = <[archive := Tar [Member "openstack_inventory.json-20261103_090507.json"
                                   (bytes "{'x': 1}")]]> (fs w).
Proof.
  intros source archive w.
  apply (load_inventory_existing "/inv" VNone w source (bytes "{'x': 1}")
           (JObj [("x", JInt 1)]) []).
  - reflexivity.
  - reflexivity.
  - vm_compute. reflexivity.
  - discriminate.
  - right. split; [reflexivity|]. split; reflexivity.
Defined.

(** C10 (counterexample). With no preferred path and an inventory file in
    the standard directory that holds the document [false], [load_inventory]
    completes: [False] is what [load_from_json] returns for a missing file
    as well, so the copy of the default inventory is returned and no backup
    is attempted. *)
Lemma load_inventory_without_preferred_path_counterexample :
  let source := "/etc/openstack_deploy/openstack_inventory.json" in
  let w := world_of [("/etc/openstack_deploy", Dir); (source, File (bytes "false"))] in
  builtins.isfile (fs w) source = true
  /\ exists w', load_inventory None VNone w = Ok VNone w' /\ fs w' = fs w.
Proof.
  intros source w. split; [reflexivity|].
  eexists. split; reflexivity.
Qed.

(** C10 (amended). The backup archive is [join(preferred_path,
    'backup_openstack_inventory.tar')], also when the inventory was loaded
    from the standard directory: a call with a preferred path whose inventory
    is resolved there writes the new member to the archive under the
    preferred path. With no preferred path, when the file of the standard
    directory does not decode to [false], the call never returns: it raises
    (the [TypeError] of [os.path.join] on [None] when the file decodes, the
    decoder's exception otherwise) and leaves the file system as it was. *)
Theorem load_inventory_without_preferred_path `{Library} (default_inv : value) (w : world)
  (data : list Byte.byte) :
  let source := os_path.join "/etc/openstack_deploy" INVENTORY_FILENAME in
  builtins.file_data (fs w) source = Some data ->
  (forall preferred_path j ms,
     let archive := os_path.join preferred_path ARCHIVE_NAME in
     file_find INVENTORY_FILENAME (Some preferred_path) true w = Ok (VStr source) w ->
     json_loads data = inr j ->
     j <> JBool false ->
     (fs w !! archive = Some (Tar ms)
      \/ (fs w !! archive = None /\ builtins.create_error (fs w) archive = None /\ ms = [])) ->
     exists v w',
       load_inventory (Some preferred_path) default_inv w = Ok v w'
       /\ fs w' !! archive
          = Some (Tar (ms ++ [Member (entry_name source (clock w)) data])))
  /\ (json_loads data <> inr (JBool false) ->
      exists e w',
        load_inventory None default_inv w = Raise e w'
        /\ fs w' = fs w
        /\ (forall j, json_loads data = inr j ->
              e = TypeError "expected str, bytes or os.PathLike object, not NoneType")).
Proof.
  intros source Hdata. split.
  - intros preferred_path j ms archive Hfind Hjson Hj Harch.
    apply file_find_inv in Hfind.
    rewrite (load_inventory_found _ default_inv _ _ _ _ ms Hfind Hdata Hjson Hj Harch).
    eexists _, _. split; [reflexivity|].
    cbn [fs add_log set_fs set_heap]. now rewrite lookup_insert_eq.
  - intros Hnot.
    assert (Hfirst : first_file (fs w) (_get_search_paths (env w) None (Some INVENTORY_FILENAME))
                     = Some source).
    { change (first_file (fs w) [source] = Some source). cbn [first_file].
      now rewrite (proj2 (isfile_file_data _ _) (ex_intro _ data Hdata)). }
    unfold load_inventory, bind.
    rewrite (load_from_json_found _ _ _ _ _ _ Hfirst Hdata).
    destruct (json_loads data) as [e|j] eqn:Ej.
    + exists e, w. split; [reflexivity|]. split; [reflexivity|]. discriminate.
    + destruct (is_False (fst (alloc j (heap w)))) eqn:EF.
      { apply is_False_alloc in EF. subst j. now contradiction Hnot. }
      cbn [negb format1 builtins.str ret]. unfold logging.debug, modify.
      eexists _, _. split; [reflexivity|]. split; [reflexivity|]. reflexivity.
Qed.

Lemma load_inventory_without_preferred_path_witness :
  let source := "/etc/openstack_deploy/openstack_inventory.json" in
  let w := world_of [("/etc/openstack_deploy", Dir); ("/inv", Dir);
                     (source, File (bytes "{'x': 1}"))] in
  (exists v w',
     load_inventory (Some "/inv") VNone w = Ok v w'
     /\ fs w' !! "/inv/backup_openstack_inventory.tar"
        = Some (Tar [Member "openstack_inventory.json-20261103_090507.json"
                       (bytes "{'x': 1}")]))
  /\ exists e w', load_inventory None VNone w = Raise e w' /\ fs w' = fs w.
Proof.
  intros source w.
  destruct (load_inventory_without_preferred_path VNone w (bytes "{'x': 1}") eq_refl)
    as [Hunder Hnone].
  split.
  - apply (Hunder "/inv" (JObj [("x", JInt 1)]) []).
    + reflexivity.
    + vm_compute. reflexivity.
    + discriminate.
    + right. split; [reflexivity|]. split; reflexivity.
  - destruct Hnone as (e & w' & Hrun & Hfs & _).
    + vm_compute. discriminate.
    + exists e, w'. split; [exact Hrun | exact Hfs].
Defined.

(** ** Saving *)

Section Saving.

Context `{Library}.

(** The [with open(t, 'wb')] block of [save_inventory], when it completes:
    [t] holds exactly the bytes written, whatever it held before. *)
Lemma write_block_inv (t : string) (data : list Byte.byte) (w w' : world) :
  (let* f := builtins.open_wb (VStr t) in
   exec builtins.write f data in
   logging.info "Inventory written") w = Ok tt w' ->
  w' = add_log (INFO, "Inventory written") (set_fs (<[t := File data]> (fs w)) w).
Proof.
  unfold bind, builtins.open_wb, builtins.write, logging.info, modify.
  assert (Hdone : forall w0 : world,
    fs w0 = <[t := File []]> (fs w) -> env w0 = env w -> clock w0 = clock w ->
    heap w0 = heap w -> log w0 = log w ->
    match
      match fs w0 !! t with
      | Some (File d) => Ok tt (set_fs (<[t := File (d ++ data)%list]> (fs w0)) w0)
      | _ => Undef
      end
    with
    | Ok _ w1 => Ok tt (add_log (INFO, "Inventory written") w1)
    | Raise e w1 => Raise e w1
    | Undef => Undef
    end = Ok tt w' ->
    w' = add_log (INFO, "Inventory written") (set_fs (<[t := File data]> (fs w)) w)).
  { intros [f0 e0 c0 h0 l0] Hfs He Hc Hh Hl. cbn [fs env clock heap log] in *. subst.
    rewrite lookup_insert_eq. intros [= <-].
    unfold add_log, set_fs. cbn [fs env clock heap log app].
    now rewrite insert_insert_eq. }
  destruct (fs w !! t) as [[| d | ms]|] eqn:Et; try discriminate.
  - now apply Hdone.
  - now apply Hdone.
  - destruct (builtins.create_error (fs w) t); [discriminate|]. now apply Hdone.
Qed.

(** The same block completes when [t] is a regular file, or is missing
    where a file can be created. *)
Lemma write_block_ok (t : string) (data : list Byte.byte) (w : world) :
  (builtins.isfile (fs w) t = true
   \/ (fs w !! t = None /\ builtins.create_error (fs w) t = None)) ->
  (let* f := builtins.open_wb (VStr t) in
   exec builtins.write f data in
   logging.info "Inventory written") w
  = Ok tt (add_log (INFO, "Inventory written") (set_fs (<[t := File data]> (fs w)) w)).
Proof.
  intros Hready.
  assert (Hrun : exists w', (let* f := builtins.open_wb (VStr t) in
                             exec builtins.write f data in
                             logging.info "Inventory written") w = Ok tt w').
  { unfold bind, builtins.open_wb, builtins.write, logging.info, modify, builtins.isfile in *.
    destruct Hready as [Hfile | [Hnone Hcreate]].
    - destruct (fs w !! t) as [[| d | ms]|]; try discriminate;
        cbn [fs set_fs]; rewrite lookup_insert_eq; eauto.
    - rewrite Hnone, Hcreate. cbn [fs set_fs]. rewrite lookup_insert_eq. eauto. }
  destruct Hrun as [w' Hrun]. rewrite Hrun. f_equal. now apply write_block_inv.
Qed.

(** The file [save_inventory] writes to: looked up when [save_path] is the
    inventory file name itself, built from [save_path] otherwise. *)
Lemma save_inventory_inv (data : list Byte.byte) (save_path : string) (w w' : world) :
  save_inventory data save_path w = Ok tt w' ->
  let target :=
    if String.eqb INVENTORY_FILENAME save_path
    then os_path.join "/etc/openstack_deploy" INVENTORY_FILENAME
    else os_path.join save_path INVENTORY_FILENAME in
  w' = add_log (INFO, "Inventory written") (set_fs (<[target := File data]> (fs w)) w).
Proof.
  unfold save_inventory. unfold bind at 1.
  destruct (String.eqb INVENTORY_FILENAME save_path) eqn:Elit.
  - apply String.eqb_eq in Elit as <-.
    destruct (first_file (fs w) (_get_search_paths (env w) None (Some INVENTORY_FILENAME)))
      as [p|] eqn:Ef.
    + rewrite (file_find_found _ _ _ _ _ Ef).
      destruct (first_file_Some _ _ _ Ef) as [[<- | []] _].
      intros Hrun. apply write_block_inv in Hrun. exact Hrun.
    + rewrite (file_find_missing _ _ _ _ Ef). discriminate.
  - unfold ret at 1. intros Hrun. apply write_block_inv in Hrun. exact Hrun.
Qed.

End Saving.

(** C7 (counterexample). [save_inventory] takes the bytes and the path and
    nothing else: the lookup it makes when the path is the inventory file
    name is always the strict one. With no inventory file in the standard
    directory, the non-strict lookup would return [False]; [save_inventory]
    raises [SystemExit]. *)
Lemma save_inventory_target_counterexample :
  let w := world_of [("/inv", Dir); ("/inv/openstack_inventory.json", File (bytes "{}"))] in
  file_find INVENTORY_FILENAME None true w = Ok (VBool false) w
  /\ save_inventory (bytes "{'x': 1}") INVENTORY_FILENAME w
     = Raise (SystemExit "No file found at: ['/etc/openstack_deploy/openstack_inventory.json']") w.
Proof. intros w. split; reflexivity. Qed.

(** C7 (amended). When [save_path] is the inventory file name literally, the
    target is resolved by [file_find] with its defaults, that is in strict
    mode and in the standard directory only: the file found there is
    overwritten, and when there is none [SystemExit] is raised and nothing is
    written. Otherwise the target is [join(save_path, INVENTORY_FILENAME)],
    and when that is a regular file, or is missing where a file can be
    created, the call returns. After a call that returns, the target holds
    exactly the bytes given and every other path is as before. *)
Theorem save_inventory_target `{Library} (data : list Byte.byte) (save_path : string)
  (w : world) :
  let standard := os_path.join "/etc/openstack_deploy" INVENTORY_FILENAME in
  let joined := os_path.join save_path INVENTORY_FILENAME in
  let written t := add_log (INFO, "Inventory written") (set_fs (<[t := File data]> (fs w)) w) in
  (save_path = INVENTORY_FILENAME ->
     (builtins.isfile (fs w) standard = true ->
        save_inventory data save_path w = Ok tt (written standard))
     /\ (builtins.isfile (fs w) standard = false ->
        save_inventory data save_path w
        = Raise (SystemExit ("No file found at: " ++ builtins.str_list [standard])) w))
  /\ (save_path <> INVENTORY_FILENAME ->
      (builtins.isfile (fs w) joined = true
       \/ (fs w !! joined = None /\ builtins.create_error (fs w) joined = None)) ->
      save_inventory data save_path w = Ok tt (written joined)).
Proof.
  intros standard joined written. split.
  - intros ->.
    split; intros Hfile; unfold save_inventory; unfold bind at 1;
      rewrite String.eqb_refl; cbv beta iota.
    + rewrite (file_find_found _ _ _ _ standard).
      * apply write_block_ok. now left.
      * change (first_file (fs w) [standard] = Some standard).
        cbn [first_file]. now rewrite Hfile.
    + rewrite file_find_missing; [reflexivity|].
      change (first_file (fs w) [standard] = None).
      cbn [first_file]. now rewrite Hfile.
  - intros Hne Hready. unfold save_inventory. unfold bind at 1.
    replace (String.eqb INVENTORY_FILENAME save_path) with false
      by (symmetry; apply String.eqb_neq; congruence).
    unfold ret at 1. now apply write_block_ok.
Qed.

Lemma save_inventory_target_witness :
  let standard := "/etc/openstack_deploy/openstack_inventory.json" in
  let w := world_of [("/etc/openstack_deploy", Dir); ("/inv", Dir);
                     (standard, File (bytes "{'old': 0}"))] in
  (exists w', save_inventory (bytes "{}") "openstack_inventory.json" w = Ok tt w'
              /\ fs w' !! standard = Some (File (bytes "{}")))
  /\ (exists w', save_inventory (bytes "{}") "/inv" w = Ok tt w'
              /\ fs w' !! "/inv/openstack_inventory.json" = Some (File (bytes "{}"))).
Proof.
  intros standard w.
  destruct (save_inventory_target (bytes "{}") "openstack_inventory.json" w) as [Hlit _].
  destruct (save_inventory_target (bytes "{}") "/inv" w) as [_ Hdir].
  split.
  - eexists. split; [apply Hlit; reflexivity | reflexivity].
  - eexists. split.
    + apply Hdir; [discriminate|]. right. split; reflexivity.
    + reflexivity.
Defined.

(** C8. After [save_inventory(data, save_path)] has returned, a
    [load_from_json] of the inventory file name that resolves to the file
    that was written returns the objects of [data] decoded as JSON (they
    unfold to that document), paired with the path of that file. *)
Theorem save_load_roundtrip `{Library} (data : list Byte.byte) (save_path : string)
  (preferred_path : option string) (pass_exception : bool) (w w' : world) (j : json) :
  let target :=
    if String.eqb INVENTORY_FILENAME save_path
    then os_path.join "/etc/openstack_deploy" INVENTORY_FILENAME
    else os_path.join save_path INVENTORY_FILENAME in
  save_inventory data save_path w = Ok tt w' ->
  file_find INVENTORY_FILENAME preferred_path pass_exception w' = Ok (VStr target) w' ->
  json_loads data = inr j ->
  exists v w'',
    load_from_json INVENTORY_FILENAME preferred_path pass_exception w'
      = Ok (v, VStr target) w''
    /\ exists n, denote n (heap w'') v = Some j.
Proof.
  intros target Hsave Hfind Hjson.
  apply save_inventory_inv in Hsave. fold target in Hsave.
  apply file_find_inv in Hfind.
  assert (Hdata : builtins.file_data (fs w') target = Some data).
  { rewrite Hsave. unfold builtins.file_data. cbn [fs add_log set_fs].
    now rewrite lookup_insert_eq. }
  rewrite (load_from_json_found _ _ _ _ _ _ Hfind Hdata), Hjson.
  eexists _, _. split; [reflexivity|]. apply alloc_denote.
Qed.

Lemma save_load_roundtrip_witness :
  let w := world_of [("/inv", Dir)] in
  exists w' v w'',
    save_inventory (bytes "{'all': {'hosts': {}}}") "/inv" w = Ok tt w'
    /\ load_from_json INVENTORY_FILENAME (Some "/inv") false w'
       = Ok (v, VStr "/inv/openstack_inventory.json") w''
    /\ exists n, denote n (heap w'') v = Some (JObj [("all", JObj [("hosts", JObj [])])]).
Proof.
  intros w. eexists.
  destruct (save_load_roundtrip (bytes "{'all': {'hosts': {}}}") "/inv" (Some "/inv") false
              w _ (JObj [("all", JObj [("hosts", JObj [])])]) eq_refl)
    as (v & w'' & Hload & Hden).
  - reflexivity.
  - vm_compute. reflexivity.
  - exists v, w''. split; [reflexivity|]. split; [exact Hload | exact Hden].
Defined.

(** ** Reachability and the shape of values *)

Lemma traverse_In {A B : Type} (f : A -> option B) (l : list A) (ys : list B) (x : A) :
  traverse f l = Some ys -> In x l -> exists y, f x = Some y.
Proof.
  revert ys. induction l as [|x0 l IH]; intros ys Ht Hin; [destruct Hin|].
  simpl in Ht. destruct (f x0) as [y0|] eqn:E0; [|discriminate].
  destruct (traverse f l) as [ys'|]; [|discriminate].
  destruct Hin as [<- | Hin]; [now exists y0 | now apply (IH ys')].
Qed.

Lemma traverse_ext {A B : Type} (f g : A -> option B) (l : list A) :
  (forall x, In x l -> f x = g x) -> traverse f l = traverse g l.
Proof.
  induction l as [|x l IH]; intros Hfg; [reflexivity|].
  simpl. rewrite (Hfg x (or_introl eq_refl)).
  rewrite IH; [reflexivity|]. intros x' Hin. apply Hfg. now right.
Qed.

Lemma reach_trans (h : list cell) (v : value) (a b : nat) :
  reach h v a -> reach h (VRef a) b -> reach h v b.
Proof.
  induction 1 as [a | a c v b0 Ha Hin _ IH]; intros Hab; [exact Hab|].
  eapply reach_step; eauto.
Qed.

(** The elements of a container that unfolds to a tree unfold too, with one
    level less. *)
Lemma denote_child (n : nat) (h : list cell) (a : nat) (j : json) (c : cell) (v : value) :
  denote (S n) h (VRef a) = Some j -> h !! a = Some c -> In v (cell_values c) ->
  exists jv, denote n h v = Some jv.
Proof.
  simpl. intros Hd Ha Hin. rewrite Ha in Hd. destruct c as [vs|kvs]; simpl in Hin.
  - destruct (traverse (denote n h) vs) as [js|] eqn:Et; [|discriminate].
    exact (traverse_In _ _ _ _ Et Hin).
  - destruct (traverse (fun kv => pair (fst kv) <$> denote n h (snd kv)) kvs)
      as [js|] eqn:Et; [|discriminate].
    apply in_map_iff in Hin as (kv & <- & Hkv).
    destruct (traverse_In _ _ _ _ Et Hkv) as [y Hy].
    destruct (denote n h (snd kv)) as [jv|]; [now exists jv | discriminate].
Qed.

(** Whatever is reachable from a value that unfolds to a tree unfolds to a
    tree as well. *)
Lemma denote_reach (h : list cell) (v : value) (a : nat) :
  reach h v a -> forall n j, denote n h v = Some j -> exists j', denote n h (VRef a) = Some j'.
Proof.
  induction 1 as [a | a c v b Ha Hin _ IH]; intros n j Hd; [now exists j|].
  destruct n as [|n]; [discriminate|].
  destruct (denote_child _ _ _ _ _ _ Hd Ha Hin) as [jv Hv].
  destruct (IH _ _ Hv) as [j' Hj'].
  exists j'. apply (denote_mono _ _ _ _ _ _ Hj'); [lia | reflexivity].
Qed.

(** A value that unfolds to a tree has no cycle: a container is not
    reachable from its own elements. *)
Lemma denote_acyclic (n : nat) : forall (h : list cell) (a : nat) (j : json) (c : cell) (v : value),
  denote n h (VRef a) = Some j -> h !! a = Some c -> In v (cell_values c) ->
  reach h v a -> False.
Proof.
  induction n as [|n IH]; intros h a j c v Hd Ha Hin Hreach; [discriminate|].
  destruct (denote_child _ _ _ _ _ _ Hd Ha Hin) as [jv Hv].
  destruct (denote_reach _ _ _ Hreach _ _ Hv) as [j' Hj'].
  exact (IH h a j' c v Hj' Ha Hin Hreach).
Qed.

(** Unfolding a value looks at the objects reachable from it and at nothing
    else. *)
Lemma denote_frame (n : nat) : forall (h h' : list cell) (v : value),
  (forall c, reach h v c -> h' !! c = h !! c) -> denote n h' v = denote n h v.
Proof.
  induction n as [|n IH]; intros h h' v Hsame; destruct v; try reflexivity.
  simpl. rewrite (Hsame a (reach_here h a)).
  destruct (h !! a) as [[vs|kvs]|] eqn:Ea; [| |reflexivity].
  - f_equal. apply traverse_ext. intros x Hx. apply IH.
    intros c Hc. apply Hsame. eapply reach_step; eauto.
  - f_equal. apply traverse_ext. intros kv Hkv. f_equal. apply IH.
    intros c Hc. apply Hsame. eapply reach_step; eauto.
    simpl. apply in_map_iff. now exists kv.
Qed.

Lemma reach_frame (h h' : list cell) (v : value) (b : nat) :
  (forall c, reach h v c -> h' !! c = h !! c) -> reach h' v b -> reach h v b.
Proof.
  intros Hsame Hreach. induction Hreach as [a | a c v b Ha Hin _ IH]; [constructor|].
  rewrite (Hsame a (reach_here h a)) in Ha.
  eapply reach_step; eauto. apply IH.
  intros c0 Hc0. apply Hsame. eapply reach_step; eauto.
Qed.

(** A value that is not a reference unfolds by itself. *)
Lemma denote_atom (n m : nat) (h h' : list cell) (v : value) :
  (forall a, v <> VRef a) -> denote n h v = denote m h' v.
Proof.
  intros Hv. destruct v; try (destruct n, m; reflexivity).
  now contradiction (Hv a).
Qed.

(** The depth of a value that unfolds to a tree is at most the number of
    objects of the heap: the containers along a path are pairwise distinct. *)
Lemma denote_bounded_path (n : nat) : forall (h : list cell) (a : nat) (j : json) (path : list nat),
  denote n h (VRef a) = Some j ->
  NoDup path ->
  (forall s, In s path ->
     s < length h /\ exists c v, h !! s = Some c /\ In v (cell_values c) /\ reach h v a) ->
  denote (length h - length path) h (VRef a) = Some j.
Proof.
  induction n as [|n IH]; intros h a j path Hd Hnd Hpath; [discriminate|].
  assert (Hfresh : ~ In a path).
  { intros Hin. destruct (Hpath a Hin) as (_ & c & v & Hc & Hv & Hreach).
    exact (denote_acyclic _ _ _ _ _ _ Hd Hc Hv Hreach). }
  assert (Ha : a < length h).
  { simpl in Hd. destruct (h !! a) eqn:Ea; [|discriminate]. eapply lookup_lt_Some, Ea. }
  assert (Hlen : length (a :: path) <= length h).
  { assert (Hsub : (a :: path) ⊆+ seq 0 (length h)).
    { apply NoDup_submseteq.
      - constructor; [now rewrite list_elem_of_In | exact Hnd].
      - intros s Hs. apply list_elem_of_In in Hs. apply elem_of_seq.
        destruct Hs as [<- | Hs]; [lia|]. destruct (Hpath s Hs). lia. }
    apply submseteq_length in Hsub. now rewrite length_seq in Hsub. }
  simpl in Hlen.
  set (m := length h - length (a :: path)).
  replace (length h - length path) with (S m) by (subst m; simpl; lia).
  assert (Hchild : forall c v jv, h !! a = Some c -> In v (cell_values c) ->
            denote n h v = Some jv -> denote m h v = Some jv).
  { intros c v jv Hc Hv Hjv.
    destruct v; try (rewrite <- Hjv; apply denote_atom; discriminate).
    apply IH; [exact Hjv | constructor; [now rewrite list_elem_of_In | exact Hnd] |].
    intros s [<- | Hs].
    - split; [exact Ha|]. exists c, (VRef a0). repeat split; [exact Hc | exact Hv | constructor].
    - destruct (Hpath s Hs) as (Hlt & c' & v' & Hc' & Hv' & Hreach).
      split; [exact Hlt|]. exists c', v'. repeat split; [exact Hc' | exact Hv' |].
      apply (reach_trans _ _ _ _ Hreach). eapply reach_step; [exact Hc | exact Hv | constructor]. }
  cbn [denote] in Hd |- *. destruct (h !! a) as [[vs|kvs]|] eqn:Ea; [| |discriminate].
  - destruct (traverse (denote n h) vs) as [js|] eqn:Et; [|discriminate].
    rewrite (traverse_mono _ (denote m h) vs _
               (fun x y Hx Hy => Hchild (CList vs) x y eq_refl Hx Hy) Et).
    exact Hd.
  - destruct (traverse (fun kv => pair (fst kv) <$> denote n h (snd kv)) kvs)
      as [js|] eqn:Et; [|discriminate].
    rewrite (traverse_mono _ (fun kv => pair (fst kv) <$> denote m h (snd kv)) kvs _
               (fun x y Hx => keyed_mono _ _ x y
                  (fun jv Hjv => Hchild (CDict kvs) (snd x) jv eq_refl (in_map snd _ _ Hx) Hjv)) Et).
    exact Hd.
Qed.

Lemma denote_bounded (n : nat) (h : list cell) (v : value) (j : json) :
  denote n h v = Some j -> denote (length h) h v = Some j.
Proof.
  intros Hd. destruct v; try (rewrite <- Hd; apply denote_atom; discriminate).
  assert (Hb : denote (length h - length (@nil nat)) h (VRef a) = Some j).
  { apply (denote_bounded_path n); [exact Hd | constructor | intros s []]. }
  cbn [length] in Hb. now rewrite Nat.sub_0_r in Hb.
Qed.

(** ** Deep copy *)

Section DeepCopy.

Local Open Scope list_scope.

(** The heap at the call of [copy.deepcopy]. *)
Variable h0 : list cell.

Local Abbreviation copy_ok := (copy_ok h0).
Local Abbreviation inv := (inv h0).
Local Abbreviation copies := (copies h0).
Local Abbreviation filling := (filling h0).

Lemma copy_ok_frame (pending : list nat) (x y : value) (h h' : list cell) :
  copy_ok pending x y h ->
  (forall c, length h0 <= c < length h -> ~ In c pending -> h' !! c = h !! c) ->
  length h <= length h' ->
  copy_ok pending x y h'.
Proof.
  intros [Hden Hreach] Hsame Hlen.
  assert (Hs : forall c, reach h y c -> h' !! c = h !! c).
  { intros c Hc. destruct (Hreach c Hc). now apply Hsame. }
  split.
  - intros m j Hx. rewrite (denote_frame m h h' y Hs). now apply Hden.
  - intros c Hc. apply (reach_frame _ _ _ _ Hs) in Hc.
    destruct (Hreach c Hc) as [Hb Hq]. split; [lia | exact Hq].
Qed.

Lemma copy_ok_weaken (pending pending' : list nat) (x y : value) (h : list cell) :
  (forall c, In c pending -> In c pending') ->
  copy_ok pending' x y h -> copy_ok pending x y h.
Proof.
  intros Hincl [Hden Hreach]. split; [exact Hden|].
  intros c Hc. destruct (Hreach c Hc) as [Hb Hq]. split; [exact Hb | auto].
Qed.

(** A finished copy is still one after a new object is created and made
    pending. *)
Lemma copy_ok_alloc (pending : list nat) (x y : value) (h : list cell) (c : cell) :
  copy_ok pending x y h -> copy_ok (length h :: pending) x y (h ++ [c]).
Proof.
  intros Hok.
  assert (Hok' : copy_ok pending x y (h ++ [c])).
  { apply (copy_ok_frame _ _ _ h); [exact Hok | | rewrite length_app; lia].
    intros c0 Hc0 _. apply lookup_app_l. lia. }
  destruct Hok as [_ Hreach], Hok' as [Hden' Hreach'].
  split; [exact Hden'|].
  intros c0 Hc0. destruct (Hreach' c0 Hc0) as [Hb Hq]. split; [exact Hb|].
  intros [<- | Hin]; [|now apply Hq].
  assert (Hs : forall c1, reach h y c1 -> (h ++ [c])%list !! c1 = h !! c1).
  { intros c1 Hc1. apply lookup_app_l. destruct (Hreach c1 Hc1). lia. }
  apply (reach_frame _ _ _ _ Hs) in Hc0. destruct (Hreach _ Hc0). lia.
Qed.

(** Creating the empty copy [y] of object [a] and recording it in the memo. *)
Lemma inv_alloc (pending : list nat) (memo : list (nat * nat)) (h : list cell)
  (a : nat) (c : cell) :
  inv pending memo h ->
  inv (length h :: pending) ((a, length h) :: memo) (h ++ [c]).
Proof.
  intros [Hpre Hpend Htarget Hdone]. pose proof (prefix_length _ _ Hpre) as Hlen.
  split.
  - now apply prefix_app_r.
  - rewrite length_app. simpl. intros q [<- | Hq]; [lia|]. specialize (Hpend q Hq). lia.
  - rewrite length_app. simpl. intros a' b.
    destruct (Nat.eqb a' a); [intros [= <-]; lia|].
    intros Hb. specialize (Htarget a' b Hb). lia.
  - simpl. intros a' b. destruct (Nat.eqb a' a).
    + intros [= <-] Hnot. contradiction Hnot. now left.
    + intros Hb Hnot. apply copy_ok_alloc, (Hdone a' b Hb).
      intros Hin. apply Hnot. now right.
Qed.

(** Storing into a pending copy changes no finished copy. *)
Lemma copy_ok_store (pending : list nat) (x y' : value) (h : list cell) (y : nat) (c : cell) :
  In y pending -> copy_ok pending x y' h -> copy_ok pending x y' (<[y := c]> h).
Proof.
  intros Hy Hok. apply (copy_ok_frame _ _ _ h); [exact Hok | | now rewrite length_insert].
  intros c0 _ Hc0. apply list_lookup_insert_ne. intros ->. now apply Hc0.
Qed.

Lemma inv_store (pending : list nat) (memo : list (nat * nat)) (h : list cell)
  (y : nat) (c : cell) :
  In y pending -> length h0 <= y ->
  inv pending memo h -> inv pending memo (<[y := c]> h).
Proof.
  intros Hy Hge [Hpre Hpend Htarget Hdone]. split.
  - destruct Hpre as [k ->]. rewrite insert_app_r_alt by exact Hge. now apply prefix_app_r.
  - now rewrite length_insert.
  - now rewrite length_insert.
  - intros a b Hb Hnot. apply copy_ok_store; [exact Hy | now apply Hdone].
Qed.

(** The copy [y] of [a] is finished: it is pending no more. *)
Lemma inv_finish (pending : list nat) (memo : list (nat * nat)) (h : list cell) (a y : nat) :
  inv (y :: pending) memo h ->
  (forall a', copy.memo_get a' memo = Some y -> a' = a) ->
  copy_ok pending (VRef a) (VRef y) h ->
  inv pending memo h.
Proof.
  intros [Hpre Hpend Htarget Hdone] Honly Hy. split.
  - exact Hpre.
  - intros q Hq. apply Hpend. now right.
  - exact Htarget.
  - intros a' b Hb Hnot. destruct (Nat.eq_dec b y) as [-> | Hne].
    + now rewrite (Honly a' Hb).
    + apply (copy_ok_weaken pending (y :: pending)); [intros c0 Hc0; now right|].
      apply (Hdone a' b Hb). intros [Heq | Hin]; [now apply Hne | now apply Hnot].
Qed.


(** One round of the loop: the copy of an element, then a store into [y]. *)
Lemma fill_step (k : nat) rec (pending : list nat) (memo0 : list (nat * nat))
  (entry : list cell) (a : nat) (memo : list (nat * nat)) (h : list cell)
  (x : value) (j : json) :
  copies k rec ->
  length h0 <= length entry ->
  (forall q, In q pending -> q < length entry) ->
  filling pending memo0 entry a memo h ->
  denote k h0 x = Some j ->
  ~ reach h0 x a ->
  (forall a' b, copy.memo_get a' memo0 = Some b -> In b pending -> ~ reach h0 x a') ->
  exists y' memo' h',
    rec x memo h = Some (y', memo', h')
    /\ h' !! length entry = h !! length entry
    /\ forall c,
         filling pending memo0 entry a memo' (<[length entry := c]> h')
         /\ copy_ok (length entry :: pending) x y' (<[length entry := c]> h')
         /\ (forall x0 y0, copy_ok (length entry :: pending) x0 y0 h ->
               copy_ok (length entry :: pending) x0 y0 (<[length entry := c]> h')).
Proof.
  intros Hrec Hge Hold [Hinv Hshape Htake Hlen] Hx Hna Hnp.
  destruct (Hrec x j (length entry :: pending) memo h Hx Hinv)
    as (y' & memo' & h' & Hrun & Hinv' & Hpre & Hfresh & Hok).
  { intros a' b Hb Hin. destruct (Hshape a' b Hb) as [[Hlt Hb0] | [[-> ->] | Hgt]].
    - destruct Hin as [<- | Hin]; [lia | now apply (Hnp a' b)].
    - exact Hna.
    - destruct Hin as [<- | Hin]; [lia | specialize (Hold b Hin); lia]. }
  exists y', memo', h'. split; [exact Hrun|].
  pose proof (prefix_length _ _ Hpre) as Hlen'.
  assert (Hkeep : forall c0, c0 < length h -> h' !! c0 = h !! c0).
  { intros c0 Hc0. destruct Hpre as [t ->]. now apply lookup_app_l. }
  split; [apply Hkeep, Hlen|].
  intros c. split; [|split].
  - split.
    + apply inv_store; [now left | exact Hge | exact Hinv'].
    + intros a' b Hb. destruct (Hfresh a' b Hb) as [Hb0 | Hnew]; [now apply Hshape|].
      right. right. lia.
    + rewrite take_insert_ge by lia. destruct Hpre as [t ->].
      rewrite take_app_le by lia. exact Htake.
    + rewrite length_insert. lia.
  - apply copy_ok_store; [now left | exact Hok].
  - intros x0 y0 Hok0. apply copy_ok_store; [now left|].
    apply (copy_ok_frame _ _ _ h); [exact Hok0 | | exact Hlen'].
    intros c0 Hc0 _. apply Hkeep. lia.
Qed.

Lemma traverse_Forall2 {A B C : Type} (f : A -> option C) (g : B -> option C)
  (xs : list A) (ys : list B) :
  Forall2 (fun x y => forall j, f x = Some j -> g y = Some j) xs ys ->
  forall js, traverse f xs = Some js -> traverse g ys = Some js.
Proof.
  induction 1 as [|x y xs ys Hxy _ IH]; intros js; [trivial|].
  simpl. destruct (f x) as [jx|] eqn:Ex; [|discriminate].
  destruct (traverse f xs) as [js'|]; [|discriminate].
  intros [= <-]. now rewrite (Hxy jx eq_refl), (IH js' eq_refl).
Qed.

(** The loop of [_deepcopy_list]: the new list ends up holding finished
    copies of the elements, in order. *)
Lemma copy_items_ok (k : nat) rec (pending : list nat) (memo0 : list (nat * nat))
  (entry : list cell) (a : nat) :
  copies k rec ->
  length h0 <= length entry ->
  (forall q, In q pending -> q < length entry) ->
  forall (todo done ys : list value) (memo : list (nat * nat)) (h : list cell),
    filling pending memo0 entry a memo h ->
    h !! length entry = Some (CList ys) ->
    Forall2 (fun x y' => copy_ok (length entry :: pending) x y' h) done ys ->
    (forall x, In x todo ->
       (exists j, denote k h0 x = Some j)
       /\ ~ reach h0 x a
       /\ (forall a' b, copy.memo_get a' memo0 = Some b -> In b pending -> ~ reach h0 x a')) ->
    exists memo' h' ys',
      copy.copy_items rec (length entry) todo memo h = Some (memo', h')
      /\ filling pending memo0 entry a memo' h'
      /\ h' !! length entry = Some (CList ys')
      /\ Forall2 (fun x y' => copy_ok (length entry :: pending) x y' h') (done ++ todo) ys'.
Proof.
  intros Hrec Hge Hold.
  induction todo as [|x todo IH]; intros done ys memo h Hfill Hy Hdone Htodo.
  - exists memo, h, ys. rewrite app_nil_r.
    split; [reflexivity|]. split; [exact Hfill|]. split; [exact Hy | exact Hdone].
  - destruct (Htodo x (or_introl eq_refl)) as ([j Hx] & Hna & Hnp).
    destruct (fill_step k rec pending memo0 entry a memo h x j Hrec Hge Hold Hfill Hx Hna Hnp)
      as (y' & memo' & h' & Hrun & Hsame & Hstep).
    destruct (Hstep (CList (ys ++ [y']))) as (Hfill' & Hok' & Hkeep).
    cbn [copy.copy_items]. rewrite Hrun.
    unfold copy.list_append. rewrite Hsame, Hy.
    destruct (IH (done ++ [x]) (ys ++ [y']) memo' (<[length entry := CList (ys ++ [y'])]> h'))
      as (memo'' & h'' & ys'' & Hloop & Hfill'' & Hy'' & Hall).
    + exact Hfill'.
    + apply list_lookup_insert_eq. apply lookup_lt_is_Some. rewrite Hsame, Hy. eauto.
    + apply Forall2_app; [|constructor; [exact Hok' | constructor]].
      eapply Forall2_impl; [exact Hdone|]. intros x0 y0. apply Hkeep.
    + intros x0 Hx0. apply Htodo. now right.
    + exists memo'', h'', ys''. rewrite <- app_assoc in Hall.
      split; [exact Hloop|]. split; [exact Hfill''|]. split; [exact Hy'' | exact Hall].
Qed.

Lemma setitem_fresh (k : string) (v : value) (kvs : list (string * value)) :
  ~ In k (map fst kvs) -> copy.setitem k v kvs = (kvs ++ [(k, v)])%list.
Proof.
  induction kvs as [|[k' v'] kvs IH]; intros Hk; [reflexivity|].
  simpl in Hk |- *. destruct (String.eqb_spec k k') as [-> | Hne].
  - contradiction Hk. now left.
  - rewrite IH; [reflexivity|]. intros Hin. apply Hk. now right.
Qed.

(** The loop of [_deepcopy_dict]: the new dict ends up holding, under the
    same keys in the same order, finished copies of the values. *)
Lemma copy_members_ok (k : nat) rec (pending : list nat) (memo0 : list (nat * nat))
  (entry : list cell) (a : nat) :
  copies k rec ->
  length h0 <= length entry ->
  (forall q, In q pending -> q < length entry) ->
  forall (todo done kvs : list (string * value)) (memo : list (nat * nat)) (h : list cell),
    filling pending memo0 entry a memo h ->
    h !! length entry = Some (CDict kvs) ->
    Forall2 (fun kv kv' => fst kv = fst kv'
               /\ copy_ok (length entry :: pending) (snd kv) (snd kv') h) done kvs ->
    NoDup (map fst (done ++ todo)) ->
    (forall kv, In kv todo ->
       (exists j, denote k h0 (snd kv) = Some j)
       /\ ~ reach h0 (snd kv) a
       /\ (forall a' b, copy.memo_get a' memo0 = Some b -> In b pending ->
             ~ reach h0 (snd kv) a')) ->
    exists memo' h' kvs',
      copy.copy_members rec (length entry) todo memo h = Some (memo', h')
      /\ filling pending memo0 entry a memo' h'
      /\ h' !! length entry = Some (CDict kvs')
      /\ Forall2 (fun kv kv' => fst kv = fst kv'
                    /\ copy_ok (length entry :: pending) (snd kv) (snd kv') h')
           (done ++ todo) kvs'.
Proof.
  intros Hrec Hge Hold.
  induction todo as [|[key x] todo IH]; intros done kvs memo h Hfill Hy Hdone Hnd Htodo.
  - exists memo, h, kvs. rewrite app_nil_r.
    split; [reflexivity|]. split; [exact Hfill|]. split; [exact Hy | exact Hdone].
  - destruct (Htodo (key, x) (or_introl eq_refl)) as ([j Hx] & Hna & Hnp).
    cbn [snd] in Hx, Hna, Hnp.
    destruct (fill_step k rec pending memo0 entry a memo h x j Hrec Hge Hold Hfill Hx Hna Hnp)
      as (y' & memo' & h' & Hrun & Hsame & Hstep).
    destruct (Hstep (CDict (kvs ++ [(key, y')]))) as (Hfill' & Hok' & Hkeep).
    cbn [copy.copy_members]. rewrite Hrun.
    unfold copy.dict_setitem. rewrite Hsame, Hy.
    assert (Hkeys' : map fst kvs = map fst done).
    { clear -Hdone. induction Hdone as [|kv kv' l l' [Hk _] _ IHl]; [reflexivity|].
      simpl. now rewrite Hk, IHl. }
    rewrite setitem_fresh.
    2:{ rewrite Hkeys'. rewrite map_app in Hnd. apply NoDup_app in Hnd as (_ & Hdisj & _).
        intros Hin. apply (Hdisj key); [now apply list_elem_of_In|].
        simpl. apply list_elem_of_here. }
    destruct (IH (done ++ [(key, x)]) (kvs ++ [(key, y')]) memo'
                (<[length entry := CDict (kvs ++ [(key, y')])]> h'))
      as (memo'' & h'' & kvs'' & Hloop & Hfill'' & Hy'' & Hall).
    + exact Hfill'.
    + apply list_lookup_insert_eq. apply lookup_lt_is_Some. rewrite Hsame, Hy. eauto.
    + apply Forall2_app; [|constructor; [split; [reflexivity | exact Hok'] | constructor]].
      eapply Forall2_impl; [exact Hdone|]. intros kv kv' [Hk Hc]. split; [exact Hk|].
      now apply Hkeep.
    + now rewrite <- app_assoc.
    + intros kv Hkv. apply Htodo. now right.
    + exists memo'', h'', kvs''. rewrite <- app_assoc in Hall.
      split; [exact Hloop|]. split; [exact Hfill''|]. split; [exact Hy'' | exact Hall].
Qed.

Lemma Forall2_In_r {A B : Type} (P : A -> B -> Prop) (l : list A) (l' : list B) (y : B) :
  Forall2 P l l' -> In y l' -> exists x, In x l /\ P x y.
Proof.
  induction 1 as [|x0 y0 l l' Hxy _ IH]; intros Hin; [destruct Hin|].
  destruct Hin as [<- | Hin].
  - exists x0. split; [now left | exact Hxy].
  - destruct (IH Hin) as (x & Hx & Hp). exists x. split; [now right | exact Hp].
Qed.

(** An immutable value is its own finished copy. *)
Lemma copy_ok_atom (pending : list nat) (x : value) (h : list cell) :
  (forall a, x <> VRef a) -> copy_ok pending x x h.
Proof.
  intros Hx. split.
  - intros m j Hm. rewrite <- Hm. now apply denote_atom.
  - intros c Hc. destruct Hc as [a0 | a0 c0 v b0 _ _ _]; now contradiction (Hx a0).
Qed.

(** In a Python heap the keys of a dict are pairwise distinct. *)
Hypothesis Hkeys : forall a kvs, h0 !! a = Some (CDict kvs) -> NoDup (map fst kvs).

(** [deepcopy] meets its contract at every depth. *)
Lemma deepcopy_memo_ok (k : nat) : copies k (copy.deepcopy_memo k).
Proof.
  induction k as [|k IH]; intros x j pending memo h Hx Hinv Hnp.
  - destruct x; try discriminate;
      (eexists _, memo, h; split; [reflexivity|]; split; [exact Hinv|];
       split; [reflexivity|]; split; [intros a0 b0 Hb0; now left|];
       apply copy_ok_atom; discriminate).
  - destruct x as [| | | | |a];
      try (eexists _, memo, h; split; [reflexivity|]; split; [exact Hinv|];
           split; [reflexivity|]; split; [intros a0 b0 Hb0; now left|];
           apply copy_ok_atom; discriminate).
    cbn [copy.deepcopy_memo].
    destruct (copy.memo_get a memo) as [b|] eqn:Em.
    { exists (VRef b), memo, h. split; [reflexivity|]. split; [exact Hinv|].
      split; [reflexivity|]. split; [intros a0 b0 Hb0; now left|].
      apply (inv_done _ _ _ _ Hinv a b Em).
      intros Hin. apply (Hnp a b Em Hin). constructor. }
    pose proof (inv_prefix _ _ _ _ Hinv) as Hpre.
    pose proof (prefix_length _ _ Hpre) as Hge.
    pose proof (inv_pending _ _ _ _ Hinv) as Hold.
    pose proof Hx as Hx'. cbn [denote] in Hx'.
    destruct (h0 !! a) as [c|] eqn:Ea; [|discriminate].
    rewrite (prefix_lookup_Some _ _ _ _ Ea Hpre).
    assert (Hfill0 : forall c0, filling pending memo h a ((a, length h) :: memo) (h ++ [c0])).
    { intros c0. split.
      - now apply inv_alloc.
      - intros a' b. cbn [copy.memo_get]. destruct (Nat.eqb_spec a' a) as [-> | Hne].
        + intros [= <-]. right. left. now split.
        + intros Hb. left. split; [apply (inv_target _ _ _ _ Hinv a' b Hb) | exact Hb].
      - apply take_app_length.
      - rewrite length_app. simpl. lia. }
    assert (Htodo : forall v, In v (cell_values c) ->
              (exists jv, denote k h0 v = Some jv)
              /\ ~ reach h0 v a
              /\ (forall a' b, copy.memo_get a' memo = Some b -> In b pending ->
                    ~ reach h0 v a')).
    { intros v Hv. split; [exact (denote_child _ _ _ _ _ _ Hx Ea Hv)|]. split.
      - exact (denote_acyclic _ _ _ _ _ _ Hx Ea Hv).
      - intros a' b Hb Hin Hreach. apply (Hnp a' b Hb Hin).
        eapply reach_step; eauto. }
    assert (Hfresh : forall memo', memo_shape memo memo' a (length h) ->
              forall a' b, copy.memo_get a' memo' = Some b ->
                copy.memo_get a' memo = Some b \/ length h <= b).
    { intros memo' Hshape a' b Hb.
      destruct (Hshape a' b Hb) as [[_ Hb0] | [[-> _] | Hgt]]; [now left | right; lia | right; lia]. }
    assert (Hself : length h0 <= length h /\ ~ In (length h) pending).
    { split; [exact Hge|]. intros Hin. specialize (Hold _ Hin). lia. }
    destruct c as [xs|kvs].
    + destruct (copy_items_ok k (copy.deepcopy_memo k) pending memo h a IH Hge Hold
                  xs [] [] _ _ (Hfill0 (CList [])))
        as (memo' & h' & ys & Hloop & Hfill & Hy & Hall);
        [now apply list_lookup_middle | constructor | exact Htodo |].
      cbn [app] in Hall. rewrite Hloop.
      exists (VRef (length h)), memo', h'. split; [reflexivity|].
      assert (Hcopy : copy_ok pending (VRef a) (VRef (length h)) h').
      { split.
        - intros m j' Hm. destruct m as [|m]; [discriminate|].
          cbn [denote] in Hm |- *. rewrite Ea in Hm. rewrite Hy.
          destruct (traverse (denote m h0) xs) as [js|] eqn:Et; [|discriminate].
          rewrite (traverse_Forall2 (denote m h0) (denote m h') xs ys) with (js := js);
            [exact Hm | | exact Et].
          eapply Forall2_impl; [exact Hall|]. intros x0 y0 [Hden _]. apply Hden.
        - intros c Hc. inversion Hc as [|a0 c0 v b0 Hc0 Hv Hreach]; subst.
          + split; [|apply Hself]. split; [exact Hge | exact (fill_len _ _ _ _ _ _ _ Hfill)].
          + rewrite Hy in Hc0. injection Hc0 as <-. cbn [cell_values] in Hv.
            destruct (Forall2_In_r _ _ _ _ Hall Hv) as (x0 & _ & [_ Hr]).
            destruct (Hr c Hreach) as [Hb Hq]. split; [exact Hb|].
            intros Hin. apply Hq. now right. }
      split; [|split; [|split; [|exact Hcopy]]].
      * apply (inv_finish pending memo' h' a (length h)); [apply Hfill | | exact Hcopy].
        intros a' Ha'. destruct (fill_shape _ _ _ _ _ _ _ Hfill a' _ Ha') as [[Hlt _] | [[_ ->] | Hgt]];
          [lia | reflexivity | lia].
      * rewrite <- (fill_take _ _ _ _ _ _ _ Hfill) at 1. apply prefix_take.
      * apply Hfresh, Hfill.
    + destruct (copy_members_ok k (copy.deepcopy_memo k) pending memo h a IH Hge Hold
                  kvs [] [] _ _ (Hfill0 (CDict [])))
        as (memo' & h' & kvs' & Hloop & Hfill & Hy & Hall);
        [now apply list_lookup_middle | constructor | exact (Hkeys a kvs Ea) | |].
      { intros kv Hkv. apply Htodo. cbn [cell_values]. now apply in_map. }
      cbn [app] in Hall. rewrite Hloop.
      exists (VRef (length h)), memo', h'. split; [reflexivity|].
      assert (Hcopy : copy_ok pending (VRef a) (VRef (length h)) h').
      { split.
        - intros m j' Hm. destruct m as [|m]; [discriminate|].
          cbn [denote] in Hm |- *. rewrite Ea in Hm. rewrite Hy.
          destruct (traverse (fun kv => pair (fst kv) <$> denote m h0 (snd kv)) kvs)
            as [js|] eqn:Et; [|discriminate].
          rewrite (traverse_Forall2 (fun kv => pair (fst kv) <$> denote m h0 (snd kv))
                     (fun kv => pair (fst kv) <$> denote m h' (snd kv)) kvs kvs') with (js := js);
            [exact Hm | | exact Et].
          eapply Forall2_impl; [exact Hall|]. intros kv kv' [Hk [Hden _]] jkv.
          rewrite <- Hk. apply keyed_mono with (kv := (fst kv, snd kv)) (g := fun _ => denote m h' (snd kv')).
          intros jv. apply Hden.
        - intros c Hc. inversion Hc as [|a0 c0 v b0 Hc0 Hv Hreach]; subst.
          + split; [|apply Hself]. split; [exact Hge | exact (fill_len _ _ _ _ _ _ _ Hfill)].
          + rewrite Hy in Hc0. injection Hc0 as <-. cbn [cell_values] in Hv.
            apply in_map_iff in Hv as (kv' & <- & Hkv').
            destruct (Forall2_In_r _ _ _ _ Hall Hkv') as (kv & _ & [_ [_ Hr]]).
            destruct (Hr c Hreach) as [Hb Hq]. split; [exact Hb|].
            intros Hin. apply Hq. now right. }
      split; [|split; [|split; [|exact Hcopy]]].
      * apply (inv_finish pending memo' h' a (length h)); [apply Hfill | | exact Hcopy].
        intros a' Ha'. destruct (fill_shape _ _ _ _ _ _ _ Hfill a' _ Ha') as [[Hlt _] | [[_ ->] | Hgt]];
          [lia | reflexivity | lia].
      * rewrite <- (fill_take _ _ _ _ _ _ _ Hfill) at 1. apply prefix_take.
      * apply Hfresh, Hfill.
Qed.

End DeepCopy.

(** [copy.deepcopy] of a value that unfolds to a tree returns: the result
    unfolds to the same tree and is made of objects that did not exist
    before, which are added at the end of the heap. *)
Lemma deepcopy_fresh (h0 : list cell) (x : value) (n : nat) (j : json) :
  (forall a kvs, h0 !! a = Some (CDict kvs) -> NoDup (map fst kvs)) ->
  denote n h0 x = Some j ->
  exists y memo h',
    copy.deepcopy_memo (length h0) x [] h0 = Some (y, memo, h')
    /\ h0 `prefix_of` h'
    /\ denote n h' y = Some j
    /\ (forall c, reach h' y c -> length h0 <= c < length h').
Proof.
  intros Hkeys Hx.
  destruct (deepcopy_memo_ok h0 Hkeys (length h0) x j [] [] h0)
    as (y & memo & h' & Hrun & _ & Hpre & _ & Hden & Hreach).
  - exact (denote_bounded _ _ _ _ Hx).
  - split; [reflexivity | intros q [] | discriminate | discriminate].
  - discriminate.
  - exists y, memo, h'. split; [exact Hrun|]. split; [exact Hpre|].
    split; [now apply Hden|]. intros c Hc. now destruct (Hreach c Hc).
Qed.

(** The objects reachable from a value that unfolds to a tree exist. *)
Lemma reach_valid (n : nat) (h : list cell) (v : value) (j : json) (c : nat) :
  denote n h v = Some j -> reach h v c -> c < length h.
Proof.
  intros Hd Hc. destruct (denote_reach _ _ _ Hc _ _ Hd) as [j' Hj'].
  destruct n as [|n]; [discriminate|]. simpl in Hj'.
  destruct (h !! c) eqn:Ec; [|discriminate]. exact (lookup_lt_Some _ _ _ Ec).
Qed.

(** C2. When no candidate path names a regular file, [load_inventory]
    returns a value that unfolds to the same JSON tree as the default
    inventory it was given (the two are deeply equal), whatever
    JSON-compatible value that is; the file system is as it was, so no backup
    archive and no archive member was created; and the returned value shares
    no object with the default: every object reachable from it was created
    by the call, and after any store into any of them the default still
    unfolds to the same tree. *)
Theorem load_inventory_default `{Library} (preferred_path : option string)
  (default_inv : value) (w : world) (n : nat) (j : json) :
  (forall p, In p (_get_search_paths (env w) preferred_path (Some INVENTORY_FILENAME)) ->
     builtins.isfile (fs w) p = false) ->
  (forall a kvs, heap w !! a = Some (CDict kvs) -> NoDup (map fst kvs)) ->
  denote n (heap w) default_inv = Some j ->
  exists v w',
    load_inventory preferred_path default_inv w = Ok v w'
    /\ denote n (heap w') v = Some j
    /\ fs w' = fs w
    /\ denote n (heap w') default_inv = Some j
    /\ (forall a, reach (heap w') v a -> length (heap w) <= a < length (heap w'))
    /\ (forall a c, reach (heap w') v a ->
          denote n (<[a := c]> (heap w')) default_inv = Some j).
Proof.
  intros Habsent Hkeys Hdefault.
  apply first_file_None in Habsent.
  destruct (deepcopy_fresh _ _ _ _ Hkeys Hdefault) as (y & memo & h' & Hrun & Hpre & Hden & Hnew).
  unfold load_inventory, bind.
  rewrite (load_from_json_missing _ _ _ Habsent).
  cbn [is_False negb]. unfold logging.debug, modify, copy.deepcopy.
  cbn [heap add_log]. rewrite Hrun.
  exists y, (set_heap h' (add_log (DEBUG, "No existing inventory, created fresh skeleton.") w)).
  split; [reflexivity|]. cbn [heap fs set_heap add_log].
  split; [exact Hden|]. split; [reflexivity|].
  split; [exact (denote_mono _ _ _ _ _ _ Hdefault (le_n _) Hpre)|].
  split; [exact Hnew|].
  intros a c Ha. rewrite <- Hdefault. apply denote_frame.
  intros c0 Hc0. pose proof (reach_valid _ _ _ _ _ Hdefault Hc0) as Hlt.
  destruct (Hnew a Ha) as [Hge _].
  rewrite list_lookup_insert_ne by lia.
  destruct Hpre as [t ->]. now apply lookup_app_l.
Qed.

Lemma load_inventory_default_witness :
  let skeleton := JObj [("all", JObj [("hosts", JObj [])])] in
  let w := World (list_to_map [("/inv", Dir); ("/etc/openstack_deploy", Dir)]) env0 t0
             [CDict []; CDict [("hosts", VRef 0)]; CDict [("all", VRef 1)]] [] in
  exists v w',
    load_inventory (Some "/inv") (VRef 2) w = Ok v w'
    /\ denote 3 (heap w') v = Some skeleton
    /\ fs w' = fs w
    /\ denote 3 (copy.dict_setitem 4 "hosts" (VInt 1) (heap w')) (VRef 2) = Some skeleton.
Proof.
  intros skeleton w.
  destruct (load_inventory_default (Some "/inv") (VRef 2) w 3 skeleton)
    as (v & w' & Hrun & Hv & Hfs & _ & _ & Hmut).
  - intros p [<- | [<- | []]]; reflexivity.
  - intros [|[|[|a]]] kvs; cbn; intros [= <-]; cbn;
      repeat (constructor; [apply not_elem_of_nil|]); constructor.
  - reflexivity.
  - exists v, w'. split; [exact Hrun|]. split; [exact Hv|]. split; [exact Hfs|].
    assert (Hw' : Ok v w' = load_inventory (Some "/inv") (VRef 2) w) by (now rewrite Hrun).
    vm_compute in Hw'. injection Hw' as -> ->. cbn [heap] in Hmut |- *.
    apply (Hmut 4). eapply reach_step; [reflexivity | now left | constructor].
Defined.

(** * Further properties of the module *)

(** ** [file_find] *)

(** X1. Whatever [file_find] is asked, it answers in one of three ways and
    leaves the world as it was: a path, which is then one of the candidates
    and names a regular file; [False], only when asked for no exception and
    no candidate is a regular file; or [SystemExit], only in strict mode and
    when no candidate is a regular file. *)
Theorem file_find_sound (filename : string) (preferred_path : option string)
  (pass_exception : bool) (w : world) :
  let search_paths := _get_search_paths (env w) preferred_path (Some filename) in
  (exists p, file_find filename preferred_path pass_exception w = Ok (VStr p) w
             /\ In p search_paths /\ builtins.isfile (fs w) p = true)
  \/ ((forall p, In p search_paths -> builtins.isfile (fs w) p = false)
      /\ ((pass_exception = true
           /\ file_find filename preferred_path pass_exception w = Ok (VBool false) w)
          \/ (pass_exception = false
              /\ exists msg,
                   file_find filename preferred_path pass_exception w
                   = Raise (SystemExit msg) w))).
Proof.
  intros search_paths.
  destruct (first_file (fs w) search_paths) as [p|] eqn:E.
  - left. exists p. split; [now apply file_find_found|]. now apply first_file_Some.
  - right. split; [now apply first_file_None|].
    unfold search_paths in E. rewrite (file_find_missing _ _ _ _ E).
    destruct pass_exception; [left | right]; eauto.
Qed.

(** X2. When the candidate of the preferred directory is not a regular file
    (it is missing, or it is a directory) and the candidate of the standard
    directory is one, [file_find] returns the standard candidate, in either
    mode; so it does when no preferred directory is given. *)
Theorem file_find_falls_back (filename : string) (preferred_path : option string)
  (pass_exception : bool) (w : world) :
  let standard := os_path.join "/etc/openstack_deploy" filename in
  filename <> "" ->
  (forall d, preferred_path = Some d ->
     builtins.isfile (fs w) (os_path.join (os_path.expanduser (env w) d) filename) = false) ->
  builtins.isfile (fs w) standard = true ->
  file_find filename preferred_path pass_exception w = Ok (VStr standard) w.
Proof.
  intros standard Hname Hpref Hstd. apply file_find_found.
  destruct filename as [|c filename]; [now contradiction Hname|].
  destruct preferred_path as [d|].
  - change (first_file (fs w)
              [os_path.join (os_path.expanduser (env w) d) (String c filename); standard]
            = Some standard).
    cbn [first_file]. now rewrite (Hpref d eq_refl), Hstd.
  - change (first_file (fs w) [standard] = Some standard).
    cbn [first_file]. now rewrite Hstd.
Qed.

Lemma file_find_falls_back_witness :
  let w := world_of [("/inv", Dir); ("/inv/openstack_inventory.json", Dir);
                     ("/etc/openstack_deploy/openstack_inventory.json", File (bytes "{}"))] in
  file_find "openstack_inventory.json" (Some "/inv") false w
  = Ok (VStr "/etc/openstack_deploy/openstack_inventory.json") w.
Proof.
  intros w. apply (file_find_falls_back "openstack_inventory.json" (Some "/inv") false w).
  - discriminate.
  - intros d [= <-]. reflexivity.
  - reflexivity.
Defined.

(** X3. For a file name that starts with a slash, [os.path.join] drops the
    directory: both candidates are the name itself, and neither the
    preferred nor the standard directory is looked into. [file_find]
    returns the name when it is a regular file, and finds nothing
    otherwise. *)
Theorem file_find_absolute (filename : string) (preferred_path : option string)
  (pass_exception : bool) (w : world) :
  Str.startswith Str.sep filename = true ->
  (builtins.isfile (fs w) filename = true ->
     file_find filename preferred_path pass_exception w = Ok (VStr filename) w)
  /\ (builtins.isfile (fs w) filename = false ->
     file_find filename preferred_path true w = Ok (VBool false) w).
Proof.
  intros Habs.
  assert (Hjoin : forall a, os_path.join a filename = filename).
  { intros a. unfold os_path.join. now rewrite Habs. }
  assert (Hpaths : forall p,
            In p (_get_search_paths (env w) preferred_path (Some filename)) -> p = filename).
  { destruct filename as [|c filename]; [discriminate|].
    unfold _get_search_paths. intros p Hp.
    apply in_map_iff in Hp as (a & <- & _). apply Hjoin. }
  split; intros Hfile.
  - destruct (first_file (fs w) (_get_search_paths (env w) preferred_path (Some filename)))
      as [p|] eqn:E.
    + destruct (first_file_Some _ _ _ E) as [Hin _].
      rewrite (Hpaths p Hin) in E. now apply file_find_found.
    + assert (Hin : In filename (_get_search_paths (env w) preferred_path (Some filename))).
      { destruct filename as [|c filename]; [discriminate|].
        unfold _get_search_paths. apply in_map_iff.
        exists (os_path.join "/etc" "openstack_deploy"). split; [apply Hjoin|].
        destruct preferred_path; [right|]; now left. }
      rewrite (proj1 (first_file_None _ _) E _ Hin) in Hfile. discriminate.
  - rewrite file_find_missing; [reflexivity|]. apply first_file_None.
    intros p Hp. now rewrite (Hpaths p Hp).
Qed.

Lemma file_find_absolute_witness :
  let w := world_of [("/srv/inventory.json", File (bytes "{}"));
                     ("/inv/srv/inventory.json", File (bytes "[]"))] in
  file_find "/srv/inventory.json" (Some "/inv") false w = Ok (VStr "/srv/inventory.json") w
  /\ file_find "/srv/other.json" (Some "/inv") true w = Ok (VBool false) w.
Proof.
  intros w. split.
  - apply (file_find_absolute "/srv/inventory.json" (Some "/inv") false w); reflexivity.
  - apply (file_find_absolute "/srv/other.json" (Some "/inv") false w); reflexivity.
Defined.

(** ** [load_from_json] *)

(** X5. In strict mode ([pass_exception=False], the default), when no
    candidate is a regular file, [load_from_json] raises the [SystemExit] of
    [file_find], with the list of the searched paths, and the world is as it
    was: no pair is returned. *)
Theorem load_from_json_strict_missing `{Library} (filename : string)
  (preferred_path : option string) (w : world) :
  let search_paths := _get_search_paths (env w) preferred_path (Some filename) in
  (forall p, In p search_paths -> builtins.isfile (fs w) p = false) ->
  load_from_json filename preferred_path false w
  = Raise (SystemExit ("No file found at: " ++ builtins.str_list search_paths)) w.
Proof.
  intros search_paths Habsent. apply first_file_None in Habsent.
  unfold load_from_json, bind. now rewrite (file_find_missing _ _ _ _ Habsent).
Qed.

Lemma load_from_json_strict_missing_witness :
  let w := world_of [("/inv", Dir)] in
  load_from_json "user_config.json" None false w
  = Raise (SystemExit "No file found at: ['/etc/openstack_deploy/user_config.json']") w.
Proof.
  intros w. apply (load_from_json_strict_missing "user_config.json" None w).
  intros p [<- | []]. reflexivity.
Defined.

(** X6. [load_from_json] only reads. When it returns, the path it returns is
    what [file_find] answers in the same world, the file system, the clock
    and the log are as they were, and the Python objects that existed are
    still there, unchanged (the heap has only grown). When it raises, the
    world is as it was. It never leaves the model. *)
Theorem load_from_json_reads_only `{Library} (filename : string)
  (preferred_path : option string) (pass_exception : bool) (w : world) :
  match load_from_json filename preferred_path pass_exception w with
  | Ok (_, target_file) w' =>
      file_find filename preferred_path pass_exception w = Ok target_file w
      /\ fs w' = fs w /\ clock w' = clock w /\ log w' = log w
      /\ heap w `prefix_of` heap w'
  | Raise _ w' => w' = w
  | Undef => False
  end.
Proof.
  destruct (first_file (fs w) (_get_search_paths (env w) preferred_path (Some filename)))
    as [p|] eqn:E.
  - destruct (first_file_Some _ _ _ E) as [_ Hfile].
    apply isfile_file_data in Hfile as [data Hdata].
    rewrite (load_from_json_found _ _ _ _ _ _ E Hdata).
    destruct (json_loads data) as [e|j]; [reflexivity|].
    split; [now apply file_find_found|]. cbn [fs clock log heap set_heap].
    split; [reflexivity|]. split; [reflexivity|]. split; [reflexivity|].
    apply alloc_denote.
  - unfold load_from_json, bind. rewrite (file_find_missing _ _ _ _ E).
    destruct pass_exception; [|reflexivity]. cbn [negb is_False ret].
    split; [reflexivity|]. split; [reflexivity|]. split; [reflexivity|].
    split; reflexivity.
Qed.

(** ** [_get_backup_name] *)

Lemma field4_check :
  forallb (fun n => Nat.eqb (String.length (Str.zfill 4 (Str.of_nat n))) 4
                    && Nat.eqb (digits_value (Str.zfill 4 (Str.of_nat n))) n)
          (seq 0 (100 * 100)) = true.
Proof. vm_compute. reflexivity. Qed.

Lemma field2_check :
  forallb (fun n => Nat.eqb (String.length (Str.zfill 2 (Str.of_nat n))) 2
                    && Nat.eqb (digits_value (Str.zfill 2 (Str.of_nat n))) n)
          (seq 0 100) = true.
Proof. vm_compute. reflexivity. Qed.

(** A year below 10000 is printed in four characters, from which it can be
    read back. *)
Lemma field4 (n : nat) :
  n < 100 * 100 ->
  String.length (Str.zfill 4 (Str.of_nat n)) = 4
  /\ digits_value (Str.zfill 4 (Str.of_nat n)) = n.
Proof.
  intros Hn. pose proof (proj1 (forallb_forall _ _) field4_check n) as Hc.
  cbv beta in Hc. rewrite andb_true_iff, !Nat.eqb_eq in Hc.
  apply Hc, in_seq. lia.
Qed.

(** The same for a field below 100, in two characters. *)
Lemma field2 (n : nat) :
  n < 100 ->
  String.length (Str.zfill 2 (Str.of_nat n)) = 2
  /\ digits_value (Str.zfill 2 (Str.of_nat n)) = n.
Proof.
  intros Hn. pose proof (proj1 (forallb_forall _ _) field2_check n) as Hc.
  cbv beta in Hc. rewrite andb_true_iff, !Nat.eqb_eq in Hc.
  apply Hc, in_seq. lia.
Qed.

Lemma append_inj_length (a a' b b' : string) :
  String.length a = String.length a' -> a ++ b = a' ++ b' -> a = a' /\ b = b'.
Proof.
  revert a'. induction a as [|c a IH]; intros [|c' a'] Hlen Heq; try discriminate.
  - now split.
  - rewrite !append_cons in Heq. injection Heq as -> Heq. injection Hlen as Hlen.
    destruct (IH a' Hlen Heq) as [-> ->]. now split.
Qed.

(** Two fields printed alike, at the head of two strings printed alike, are
    the same number. *)
Lemma field_inj (k n n' : nat) (b b' : string) :
  String.length (Str.zfill k (Str.of_nat n)) = k ->
  String.length (Str.zfill k (Str.of_nat n')) = k ->
  digits_value (Str.zfill k (Str.of_nat n)) = n ->
  digits_value (Str.zfill k (Str.of_nat n')) = n' ->
  Str.zfill k (Str.of_nat n) ++ b = Str.zfill k (Str.of_nat n') ++ b' ->
  n = n' /\ b = b'.
Proof.
  intros Hl Hl' Hv Hv' Heq.
  destruct (append_inj_length _ _ _ _ (eq_trans Hl (eq_sym Hl')) Heq) as [Hz Hb].
  split; [|exact Hb]. now rewrite <- Hv, <- Hv', Hz.
Qed.

(** [strftime("%Y%m%d_%H%M%S")] tells two times apart, and so does the
    stamp followed by anything. *)
Lemma strftime_inj (t1 t2 : datetime) (b1 b2 : string) :
  printable t1 -> printable t2 ->
  datetime_.strftime t1 ++ b1 = datetime_.strftime t2 ++ b2 -> t1 = t2 /\ b1 = b2.
Proof.
  destruct t1 as [y1 mo1 d1 h1 mi1 s1], t2 as [y2 mo2 d2 h2 mi2 s2].
  unfold printable, datetime_.strftime. cbn [year month day hour minute second].
  intros (Hy1 & Hmo1 & Hd1 & Hh1 & Hmi1 & Hs1) (Hy2 & Hmo2 & Hd2 & Hh2 & Hmi2 & Hs2) Heq.
  rewrite !append_assoc in Heq.
  destruct (field4 y1 Hy1), (field4 y2 Hy2), (field2 mo1 Hmo1), (field2 mo2 Hmo2),
    (field2 d1 Hd1), (field2 d2 Hd2), (field2 h1 Hh1), (field2 h2 Hh2),
    (field2 mi1 Hmi1), (field2 mi2 Hmi2), (field2 s1 Hs1), (field2 s2 Hs2).
  apply field_inj in Heq as [-> Heq]; try assumption.
  apply field_inj in Heq as [-> Heq]; try assumption.
  apply field_inj in Heq as [-> Heq]; try assumption.
  change ("_" ++ ?x) with (String "_" x) in Heq. injection Heq as Heq.
  apply field_inj in Heq as [-> Heq]; try assumption.
  apply field_inj in Heq as [-> Heq]; try assumption.
  apply field_inj in Heq as [-> Heq]; try assumption.
  now split.
Qed.

(** X4. [_get_backup_name] always returns, without changing the world, the
    base name followed by a dash, the time of the clock printed as
    [YYYYMMDD_HHMMSS], and [.json]. Called at two different times (to the
    second) with the same base name it returns two different names: the
    backups of different seconds cannot be taken for one another. *)
Theorem backup_names_differ (basename : string) (w1 w2 : world) :
  printable (clock w1) -> printable (clock w2) -> clock w1 <> clock w2 ->
  exists name1 name2,
    _get_backup_name basename w1 = Ok name1 w1
    /\ _get_backup_name basename w2 = Ok name2 w2
    /\ name1 = basename ++ "-" ++ datetime_.strftime (clock w1) ++ ".json"
    /\ name1 <> name2.
Proof.
  intros Hp1 Hp2 Hne. eexists _, _. split; [reflexivity|]. split; [reflexivity|].
  split; [reflexivity|]. intros Heq. apply Hne.
  apply (inj (String.append basename)) in Heq.
  change ("-" ++ ?x) with (String "-" x) in Heq. injection Heq as Heq.
  now destruct (strftime_inj _ _ _ _ Hp1 Hp2 Heq).
Qed.

Lemma backup_names_differ_witness :
  let w1 := world_of [] in
  let w2 := set_clock (Datetime 2026 11 3 9 5 8) w1 in
  exists name2,
    _get_backup_name "openstack_inventory.json" w1
      = Ok "openstack_inventory.json-20261103_090507.json" w1
    /\ _get_backup_name "openstack_inventory.json" w2 = Ok name2 w2
    /\ "openstack_inventory.json-20261103_090507.json" <> name2.
Proof.
  intros w1 w2.
  destruct (backup_names_differ "openstack_inventory.json" w1 w2)
    as (name1 & name2 & H1 & H2 & Hform & Hne).
  - unfold printable. cbn. lia.
  - unfold printable. cbn. lia.
  - discriminate.
  - exists name2. split; [reflexivity|]. split; [exact H2|].
    rewrite Hform in Hne. exact Hne.
Defined.

(** ** [load_inventory] *)

Section LoadInventory.

Context `{Library}.

(** The branch of [load_inventory] for a missing inventory. *)
Lemma load_inventory_fallback (preferred_path : option string) (default_inv : value)
  (w w1 : world) (target : value) :
  load_from_json INVENTORY_FILENAME preferred_path true w = Ok (VBool false, target) w1 ->
  load_inventory preferred_path default_inv w
  = (exec logging.debug "No existing inventory, created fresh skeleton." in
     copy.deepcopy default_inv) w1.
Proof.
  intros Hload. unfold load_inventory. unfold bind at 1. rewrite Hload.
  cbn [is_False negb]. unfold bind, logging.debug, modify, copy.deepcopy, ret.
  now destruct (copy.deepcopy_memo _ _ _ _) as [[[y memo] h]|].
Qed.

(** A backup whose archive cannot be opened raises the error of
    [tarfile.open] and leaves the world as it was. *)
Lemma make_backup_open_fails (backup_path : string) (source : value) (w : world) (e : exn) :
  open_error (fs w) (os_path.join backup_path ARCHIVE_NAME) = Some e ->
  _make_backup (Some backup_path) source w = Raise e w.
Proof.
  unfold open_error, _make_backup, join_opt, tarfile.with_open_a, tarfile.open_a, bind, ret.
  change (os_path.join backup_path "backup_openstack_inventory.tar")
    with (os_path.join backup_path ARCHIVE_NAME).
  destruct (fs w !! os_path.join backup_path ARCHIVE_NAME) as [[| d | ms]|].
  - now intros [= <-].
  - now intros [= <-].
  - discriminate.
  - now intros ->.
Qed.

(** A backup of a file that exists: it completes, having changed at most the
    archive, or it raises, at the join or at the opening of the archive,
    having changed nothing. *)
Lemma make_backup_run (backup_path : option string) (source : string) (w : world)
  (data : list Byte.byte) :
  builtins.file_data (fs w) source = Some data ->
  match _make_backup backup_path (VStr source) w with
  | Ok _ w' =>
      exists d, backup_path = Some d
        /\ forall p, p <> os_path.join d ARCHIVE_NAME -> fs w' !! p = fs w !! p
  | Raise _ w' => fs w' = fs w
  | Undef => False
  end.
Proof.
  intros Hdata. destruct backup_path as [d|]; [|reflexivity].
  destruct (open_error (fs w) (os_path.join d ARCHIVE_NAME)) as [e|] eqn:Eo.
  { now rewrite (make_backup_open_fails _ _ _ _ Eo). }
  revert Eo.
  unfold open_error, _make_backup, join_opt, tarfile.with_open_a, tarfile.open_a, bind, ret.
  change (os_path.join d "backup_openstack_inventory.tar")
    with (os_path.join d ARCHIVE_NAME).
  set (archive := os_path.join d ARCHIVE_NAME).
  cbn [builtins.fspath]. unfold ret, tarfile.add, _get_backup_name, datetime_.utcnow, gets, bind, ret.
  destruct (fs w !! archive) as [[| d0 | ms]|] eqn:Ea; try discriminate; intros Ec.
  - cbn [tarfile.name tarfile.members].
    destruct (String.eqb_spec source archive) as [-> | Hne].
    + unfold tarfile.close, logging.debug, modify. cbn [fs set_fs add_log tarfile.name].
      exists d. split; [reflexivity|]. intros p Hp. now rewrite lookup_insert_ne.
    + rewrite Hdata. unfold tarfile.close, logging.debug, modify.
      cbn [fs set_fs add_log tarfile.name]. exists d. split; [reflexivity|].
      intros p Hp. now rewrite lookup_insert_ne.
  - rewrite Ec. cbn [fs set_fs tarfile.name tarfile.members].
    destruct (String.eqb_spec source archive) as [-> | Hne].
    + unfold builtins.file_data in Hdata. rewrite Ea in Hdata. discriminate.
    + cbn [fs set_fs]. rewrite file_data_insert_ne by exact Hne. rewrite Hdata.
      unfold tarfile.close, logging.debug, modify.
      cbn [fs set_fs add_log tarfile.name]. exists d. split; [reflexivity|].
      intros p Hp. now rewrite !lookup_insert_ne.
Qed.

End LoadInventory.

(** X7. [load_inventory] cannot tell an inventory file that holds the JSON
    document [false] from no inventory file: in both cases it logs that
    there is no inventory and returns [copy.deepcopy(default_inv)], without
    any backup. *)
Theorem load_inventory_false_is_missing `{Library} (preferred_path : option string)
  (default_inv : value) (w : world) :
  let fallback :=
    (exec logging.debug "No existing inventory, created fresh skeleton." in
     copy.deepcopy default_inv) w in
  ((forall p, In p (_get_search_paths (env w) preferred_path (Some INVENTORY_FILENAME)) ->
      builtins.isfile (fs w) p = false) ->
   load_inventory preferred_path default_inv w = fallback)
  /\ (forall p data,
        file_find INVENTORY_FILENAME preferred_path true w = Ok (VStr p) w ->
        builtins.file_data (fs w) p = Some data ->
        json_loads data = inr (JBool false) ->
        load_inventory preferred_path default_inv w = fallback).
Proof.
  intros fallback. split.
  - intros Habsent. apply first_file_None in Habsent.
    apply (load_inventory_fallback _ _ _ _ (VBool false)).
    now apply load_from_json_missing.
  - intros p data Hfind Hdata Hjson. apply file_find_inv in Hfind.
    apply (load_inventory_fallback _ _ _ _ (VStr p)).
    rewrite (load_from_json_found _ _ _ _ _ _ Hfind Hdata), Hjson.
    cbn [alloc fst snd]. now destruct w.
Qed.

Lemma load_inventory_false_is_missing_witness :
  let present := world_of [("/inv", Dir); ("/inv/openstack_inventory.json", File (bytes "false"))] in
  let absent := world_of [("/inv", Dir)] in
  (exists w', load_inventory (Some "/inv") (VInt 7) present = Ok (VInt 7) w'
              /\ fs w' = fs present)
  /\ (exists w', load_inventory (Some "/inv") (VInt 7) absent = Ok (VInt 7) w'
              /\ fs w' = fs absent).
Proof.
  intros present absent.
  destruct (load_inventory_false_is_missing (Some "/inv") (VInt 7) present) as [_ Hfalse].
  destruct (load_inventory_false_is_missing (Some "/inv") (VInt 7) absent) as [Hmissing _].
  split.
  - rewrite (Hfalse "/inv/openstack_inventory.json" (bytes "false"));
      [| reflexivity | reflexivity | vm_compute; reflexivity].
    eexists. split; reflexivity.
  - rewrite Hmissing; [|intros p [<- | [<- | []]]; reflexivity].
    eexists. split; reflexivity.
Defined.

(** X8. [load_inventory] writes to one path at most. When it returns, every
    path other than the backup archive of the preferred path names what it
    named before (in particular the inventory file itself is intact), and
    with no preferred path nothing has changed at all. When it raises, the
    file system is as it was: there is no half-made backup. It never leaves
    the model on account of the files: only [copy.deepcopy] can. *)
Theorem load_inventory_frame `{Library} (preferred_path : option string)
  (default_inv : value) (w : world) :
  match load_inventory preferred_path default_inv w with
  | Ok _ w' =>
      forall p, (forall d, preferred_path = Some d -> p <> os_path.join d ARCHIVE_NAME) ->
                fs w' !! p = fs w !! p
  | Raise _ w' => fs w' = fs w
  | Undef => copy.deepcopy default_inv w = Undef
  end.
Proof.
  assert (Hfallback : forall w1 t, fs w1 = fs w -> heap w1 = heap w ->
    load_from_json INVENTORY_FILENAME preferred_path true w = Ok (VBool false, t) w1 ->
    match load_inventory preferred_path default_inv w with
    | Ok _ w' =>
        forall p, (forall d, preferred_path = Some d -> p <> os_path.join d ARCHIVE_NAME) ->
                  fs w' !! p = fs w !! p
    | Raise _ w' => fs w' = fs w
    | Undef => copy.deepcopy default_inv w = Undef
    end).
  { intros w1 t Hfs Hheap Hload. rewrite (load_inventory_fallback _ _ _ _ _ Hload).
    unfold bind, logging.debug, modify, copy.deepcopy. cbn [heap add_log].
    rewrite Hheap.
    destruct (copy.deepcopy_memo _ _ _ _) as [[[y memo] h]|]; [|reflexivity].
    intros p _. cbn [fs set_heap add_log]. now rewrite Hfs. }
  destruct (first_file (fs w) (_get_search_paths (env w) preferred_path (Some INVENTORY_FILENAME)))
    as [p|] eqn:E.
  2:{ apply (Hfallback w (VBool false)); [reflexivity | reflexivity |].
      now apply load_from_json_missing. }
  destruct (first_file_Some _ _ _ E) as [Hin Hfile].
  apply isfile_file_data in Hfile as [data Hdata].
  pose proof (load_from_json_found _ _ true _ _ _ E Hdata) as Hload.
  destruct (json_loads data) as [e|j] eqn:Ej.
  { unfold load_inventory, bind. now rewrite Hload. }
  destruct (is_False (fst (alloc j (heap w)))) eqn:EF.
  { apply is_False_alloc in EF. subst j. cbn [alloc fst snd] in Hload.
    apply (Hfallback (set_heap (heap w) w) (VStr p)); [reflexivity | reflexivity | exact Hload]. }
  unfold load_inventory. unfold bind at 1. rewrite Hload. rewrite EF.
  cbn [negb format1 builtins.str]. unfold ret at 1. unfold bind at 1.
  unfold bind at 1. unfold logging.debug at 1. unfold modify.
  set (w1 := add_log _ _).
  assert (Hdata1 : builtins.file_data (fs w1) p = Some data) by exact Hdata.
  pose proof (make_backup_run preferred_path p w1 data Hdata1) as Hrun.
  unfold bind.
  destruct (_make_backup preferred_path (VStr p) w1) as [[] w2 | e w2 |].
  - destruct Hrun as (d & -> & Hframe). intros q Hq. unfold ret.
    rewrite (Hframe q (Hq d eq_refl)). reflexivity.
  - exact Hrun.
  - contradiction.
Qed.

(** X13. When the inventory is found and decodes, but the archive of the
    preferred path cannot be opened (it is a directory, a file that is not
    a tar archive, or in a directory that does not exist), [load_inventory]
    raises the error of [tarfile.open] in place of returning the inventory,
    and the file system is as it was. *)
Theorem load_inventory_backup_fails `{Library} (preferred_path : string)
  (default_inv : value) (w : world) (p : string) (data : list Byte.byte) (j : json) (e : exn) :
  file_find INVENTORY_FILENAME (Some preferred_path) true w = Ok (VStr p) w ->
  builtins.file_data (fs w) p = Some data ->
  json_loads data = inr j ->
  j <> JBool false ->
  open_error (fs w) (os_path.join preferred_path ARCHIVE_NAME) = Some e ->
  exists w',
    load_inventory (Some preferred_path) default_inv w = Raise e w' /\ fs w' = fs w.
Proof.
  intros Hfind Hdata Hjson Hj Hopen. apply file_find_inv in Hfind.
  unfold load_inventory, bind.
  rewrite (load_from_json_found _ _ _ _ _ _ Hfind Hdata), Hjson.
  destruct (is_False (fst (alloc j (heap w)))) eqn:EF.
  { apply is_False_alloc in EF. contradiction. }
  cbn [negb format1 builtins.str ret]. unfold logging.debug at 1. unfold modify.
  rewrite make_backup_open_fails with (e := e); [|exact Hopen].
  eexists. split; reflexivity.
Qed.

Lemma load_inventory_backup_fails_witness :
  let archive := "/inv/backup_openstack_inventory.tar" in
  let w := world_of [("/inv", Dir); ("/inv/openstack_inventory.json", File (bytes "{'x': 1}"));
                     (archive, Dir)] in
  exists w',
    load_inventory (Some "/inv") VNone w = Raise (OSError EISDIR archive) w'
    /\ fs w' = fs w.
Proof.
  intros archive w.
  apply (load_inventory_backup_fails "/inv" VNone w "/inv/openstack_inventory.json"
           (bytes "{'x': 1}") (JObj [("x", JInt 1)])).
  - reflexivity.
  - reflexivity.
  - vm_compute. reflexivity.
  - discriminate.
  - reflexivity.
Defined.

(** ** Sequences of calls *)

Section Sequences.

Context `{Library}.

Lemma isfile_insert_ne (f : gmap string node) (a p : string) (n : node) :
  p <> a -> builtins.isfile (<[a := n]> f) p = builtins.isfile f p.
Proof. intros Hne. unfold builtins.isfile. now rewrite lookup_insert_ne. Qed.

(** Writing to a path that is no candidate does not change the resolution. *)
Lemma first_file_insert_ne (f : gmap string node) (a : string) (n : node) (l : list string) :
  (forall c, In c l -> c <> a) -> first_file (<[a := n]> f) l = first_file f l.
Proof.
  induction l as [|c l IH]; intros Hne; [reflexivity|].
  cbn [first_file]. rewrite isfile_insert_ne by (apply Hne; now left).
  rewrite IH; [reflexivity|]. intros c' Hc'. apply Hne. now right.
Qed.

(** [expanduser] leaves a path that does not start with a tilde as it is. *)
Lemma expanduser_no_tilde (e : os_path.environ) (path : string) :
  Str.startswith "~"%char path = false -> os_path.expanduser e path = path.
Proof.
  destruct path as [|c path]; [reflexivity|].
  destruct c as [[] [] [] [] [] [] [] []]; try reflexivity. discriminate.
Qed.

(** [save_inventory] on a target that is a regular file. *)
Lemma save_inventory_existing (data : list Byte.byte) (save_path : string) (w : world) :
  builtins.isfile (fs w) (save_target save_path) = true ->
  save_inventory data save_path w
  = Ok tt (add_log (INFO, "Inventory written")
             (set_fs (<[save_target save_path := File data]> (fs w)) w)).
Proof.
  unfold save_target, save_inventory. unfold bind at 1.
  destruct (String.eqb_spec INVENTORY_FILENAME save_path) as [<- | Hne]; intros Hfile.
  - rewrite (file_find_found _ _ _ _ (os_path.join "/etc/openstack_deploy" INVENTORY_FILENAME)).
    + apply write_block_ok. now left.
    + change (first_file (fs w) [os_path.join "/etc/openstack_deploy" INVENTORY_FILENAME]
              = Some (os_path.join "/etc/openstack_deploy" INVENTORY_FILENAME)).
      cbn [first_file]. now rewrite Hfile.
  - unfold ret at 1. apply write_block_ok. now left.
Qed.


End Sequences.

(** X9. Backups accumulate. Under the conditions in which [load_inventory]
    returns the inventory, a second [load_inventory] at any later time
    returns too, and the archive then holds its former members followed by
    two new ones, in the order of the calls, both with the bytes of the
    inventory file: one load never replaces the backup of another. *)
Theorem load_inventory_twice `{Library} (preferred_path : string) (default_inv : value)
  (w : world) (p : string) (data : list Byte.byte) (j : json) (ms : list member)
  (later : datetime) :
  let archive := os_path.join preferred_path ARCHIVE_NAME in
  file_find INVENTORY_FILENAME (Some preferred_path) true w = Ok (VStr p) w ->
  builtins.file_data (fs w) p = Some data ->
  json_loads data = inr j ->
  j <> JBool false ->
  (fs w !! archive = Some (Tar ms)
   \/ (fs w !! archive = None /\ builtins.create_error (fs w) archive = None /\ ms = [])) ->
  exists v1 w1 v2 w2,
    load_inventory (Some preferred_path) default_inv w = Ok v1 w1
    /\ load_inventory (Some preferred_path) default_inv (set_clock later w1) = Ok v2 w2
    /\ fs w2 = <[archive := Tar (ms ++ [Member (entry_name p (clock w)) data;
                                        Member (entry_name p later) data])]> (fs w).
Proof.
  intros archive Hfind Hdata Hjson Hj Harch. apply file_find_inv in Hfind.
  destruct (first_file_Some _ _ _ Hfind) as [Hin _].
  destruct (inventory_is_not_archive _ _ preferred_path _ Hin) as [Hne _].
  pose proof (load_inventory_found _ default_inv _ _ _ _ ms Hfind Hdata Hjson Hj Harch) as H1.
  cbv zeta in H1. fold archive in H1.
  set (e1 := Member (entry_name p (clock w)) data) in *.
  set (w1 := add_log _ (set_fs _ _)) in H1.
  assert (Hfind2 : first_file (fs (set_clock later w1))
            (_get_search_paths (env (set_clock later w1)) (Some preferred_path)
               (Some INVENTORY_FILENAME)) = Some p).
  { cbn [fs env set_clock w1 add_log set_fs set_heap]. rewrite first_file_insert_ne; [exact Hfind|].
    intros c Hc. now apply (inventory_is_not_archive _ _ preferred_path _ Hc). }
  assert (Hdata2 : builtins.file_data (fs (set_clock later w1)) p = Some data).
  { cbn [fs set_clock w1 add_log set_fs set_heap]. now rewrite file_data_insert_ne. }
  assert (Harch2 : fs (set_clock later w1) !! archive = Some (Tar (ms ++ [e1]))).
  { cbn [fs set_clock w1 add_log set_fs set_heap]. apply lookup_insert_eq. }
  pose proof (load_inventory_found _ default_inv _ _ _ _ (ms ++ [e1])
                Hfind2 Hdata2 Hjson Hj (or_introl Harch2)) as H2.
  eexists _, w1, _, _. split; [exact H1|]. split; [exact H2|].
  cbn [fs clock set_clock w1 add_log set_fs set_heap].
  rewrite insert_insert_eq. now rewrite <- app_assoc.
Qed.

Lemma load_inventory_twice_witness :
  let source := "/inv/openstack_inventory.json" in
  let w := world_of [("/inv", Dir); (source, File (bytes "{'x': 1}"))] in
  exists v1 w1 v2 w2,
    load_inventory (Some "/inv") VNone w = Ok v1 w1
    /\ load_inventory (Some "/inv") VNone (set_clock (Datetime 2026 11 3 9 5 9) w1) = Ok v2 w2
    /\ fs w2 !! "/inv/backup_openstack_inventory.tar"
       = Some (Tar [Member "openstack_inventory.json-20261103_090507.json" (bytes "{'x': 1}");
                    Member "openstack_inventory.json-20261103_090509.json" (bytes "{'x': 1}")]).
Proof.
  intros source w.
  destruct (load_inventory_twice "/inv" VNone w source (bytes "{'x': 1}")
              (JObj [("x", JInt 1)]) [] (Datetime 2026 11 3 9 5 9))
    as (v1 & w1 & v2 & w2 & H1 & H2 & Hfs).
  - reflexivity.
  - reflexivity.
  - vm_compute. reflexivity.
  - discriminate.
  - right. split; [reflexivity|]. split; reflexivity.
  - exists v1, w1, v2, w2. split; [exact H1|]. split; [exact H2|].
    rewrite Hfs. now rewrite lookup_insert_eq.
Defined.

(** X10. What is saved is what is loaded. After [save_inventory(data,
    save_path)] has returned, for a directory [save_path] that does not start
    with a tilde, [load_inventory(save_path)] resolves the file that was
    written: when [data] decodes to a document other than [false] and the
    archive of [save_path] can be opened, it returns the objects of that
    document, the archive gains one member holding exactly [data], and the
    inventory file still holds [data]. *)
Theorem save_then_load_inventory `{Library} (data : list Byte.byte) (save_path : string)
  (default_inv : value) (w w1 : world) (j : json) (ms : list member) :
  let target := os_path.join save_path INVENTORY_FILENAME in
  let archive := os_path.join save_path ARCHIVE_NAME in
  save_path <> INVENTORY_FILENAME ->
  Str.startswith "~"%char save_path = false ->
  save_inventory data save_path w = Ok tt w1 ->
  json_loads data = inr j ->
  j <> JBool false ->
  (fs w1 !! archive = Some (Tar ms)
   \/ (fs w1 !! archive = None /\ builtins.create_error (fs w1) archive = None /\ ms = [])) ->
  exists v w2,
    load_inventory (Some save_path) default_inv w1 = Ok v w2
    /\ (exists n, denote n (heap w2) v = Some j)
    /\ fs w2 !! archive
       = Some (Tar (ms ++ [Member (INVENTORY_FILENAME ++ "-"
                                   ++ datetime_.strftime (clock w) ++ ".json") data]))
    /\ fs w2 !! target = Some (File data).
Proof.
  intros target archive Hdir Htilde Hsave Hjson Hj Harch.
  apply save_inventory_inv in Hsave. cbv zeta in Hsave.
  replace (String.eqb INVENTORY_FILENAME save_path) with false in Hsave
    by (symmetry; apply String.eqb_neq; congruence).
  fold target in Hsave.
  assert (Htarget : fs w1 !! target = Some (File data)).
  { rewrite Hsave. cbn [fs add_log set_fs]. apply lookup_insert_eq. }
  assert (Hclock : clock w1 = clock w) by (now rewrite Hsave).
  assert (Hfind : first_file (fs w1)
            (_get_search_paths (env w1) (Some save_path) (Some INVENTORY_FILENAME)) = Some target).
  { unfold _get_search_paths. cbn [INVENTORY_FILENAME map].
    rewrite (expanduser_no_tilde _ _ Htilde). cbn [first_file].
    unfold builtins.isfile. fold INVENTORY_FILENAME. fold target. now rewrite Htarget. }
  assert (Hdata : builtins.file_data (fs w1) target = Some data).
  { unfold builtins.file_data. now rewrite Htarget. }
  destruct (first_file_Some _ _ _ Hfind) as [Hin _].
  destruct (inventory_is_not_archive _ _ save_path _ Hin) as [Hne Hbase].
  rewrite (load_inventory_found _ default_inv _ _ _ _ ms Hfind Hdata Hjson Hj Harch).
  eexists _, _. split; [reflexivity|]. cbn [fs heap add_log set_fs set_heap].
  split; [apply alloc_denote|]. fold archive. split.
  - rewrite lookup_insert_eq. unfold entry_name. now rewrite Hbase, Hclock.
  - rewrite lookup_insert_ne by (intros Heq; now apply Hne). exact Htarget.
Qed.

Lemma save_then_load_inventory_witness :
  let w := world_of [("/inv", Dir)] in
  exists w1 v w2,
    save_inventory (bytes "{'x': 1}") "/inv" w = Ok tt w1
    /\ load_inventory (Some "/inv") VNone w1 = Ok v w2
    /\ (exists n, denote n (heap w2) v = Some (JObj [("x", JInt 1)]))
    /\ fs w2 !! "/inv/backup_openstack_inventory.tar"
       = Some (Tar [Member "openstack_inventory.json-20261103_090507.json" (bytes "{'x': 1}")])
    /\ fs w2 !! "/inv/openstack_inventory.json" = Some (File (bytes "{'x': 1}")).
Proof.
  intros w.
  set (w1 := add_log (INFO, "Inventory written")
               (set_fs (<["/inv/openstack_inventory.json" := File (bytes "{'x': 1}")]> (fs w)) w)).
  exists w1.
  destruct (save_then_load_inventory (bytes "{'x': 1}") "/inv" VNone w w1
              (JObj [("x", JInt 1)]) [])
    as (v & w2 & Hload & Hden & Harch & Hfile).
  - discriminate.
  - reflexivity.
  - reflexivity.
  - vm_compute. reflexivity.
  - discriminate.
  - right. split; [reflexivity|]. split; reflexivity.
  - exists v, w2. split; [reflexivity|]. split; [exact Hload|]. split; [exact Hden|].
    split; [exact Harch | exact Hfile].
Defined.

(** X11. The last save wins. After a [save_inventory] that returned, a
    second one to the same [save_path] returns too, whatever the bytes, and
    leaves in the target exactly the bytes of the second call: nothing of
    the first is kept, and no other path has changed since before the
    first. *)
Theorem save_inventory_overwrites `{Library} (first second : list Byte.byte)
  (save_path : string) (w w1 : world) :
  save_inventory first save_path w = Ok tt w1 ->
  exists w2,
    save_inventory second save_path w1 = Ok tt w2
    /\ fs w2 = <[save_target save_path := File second]> (fs w).
Proof.
  intros Hsave. apply save_inventory_inv in Hsave. cbv zeta in Hsave.
  fold (save_target save_path) in Hsave.
  rewrite (save_inventory_existing second save_path w1).
  - eexists. split; [reflexivity|]. rewrite Hsave. cbn [fs add_log set_fs].
    apply insert_insert_eq.
  - rewrite Hsave. cbn [fs add_log set_fs]. unfold builtins.isfile.
    now rewrite lookup_insert_eq.
Qed.

Lemma save_inventory_overwrites_witness :
  let w := world_of [("/inv", Dir)] in
  exists w1 w2,
    save_inventory (bytes "{'a': [1, 2, 3]}") "/inv" w = Ok tt w1
    /\ save_inventory (bytes "{}") "/inv" w1 = Ok tt w2
    /\ fs w2 !! "/inv/openstack_inventory.json" = Some (File (bytes "{}")).
Proof.
  intros w.
  set (w1 := add_log (INFO, "Inventory written")
               (set_fs (<["/inv/openstack_inventory.json" := File (bytes "{'a': [1, 2, 3]}")]>
                          (fs w)) w)).
  exists w1.
  destruct (save_inventory_overwrites (bytes "{'a': [1, 2, 3]}") (bytes "{}") "/inv" w w1 eq_refl)
    as (w2 & Hsave & Hfs).
  exists w2. split; [reflexivity|]. split; [exact Hsave|].
  rewrite Hfs. apply lookup_insert_eq.
Defined.


(** ** The mode of the lookup *)

Section Mode.

Context `{Library}.

(** A backup never raises [SystemExit]. *)
Lemma make_backup_no_exit (backup_path : option string) (source : string) (w w' : world)
  (e : exn) :
  _make_backup backup_path (VStr source) w = Raise e w' -> forall msg, e <> SystemExit msg.
Proof.
  destruct backup_path as [d|]; [|intros [= <- _]; discriminate].
  unfold _make_backup, join_opt, tarfile.with_open_a, tarfile.open_a, bind, ret.
  set (archive := os_path.join d _).
  cbn [builtins.fspath]. unfold ret, tarfile.add, _get_backup_name, datetime_.utcnow, gets, bind, ret.
  assert (Hadd : forall (tar : tarfile.TarFile) (w0 : world) name,
    match
      match
        (if String.eqb source (tarfile.name tar) then fun w1 => Ok tar w1
         else fun w1 =>
           match builtins.file_data (fs w1) source with
           | Some d0 =>
               Ok (tarfile.Handle (tarfile.name tar)
                     (tarfile.members tar ++ [Member name d0])%list) w1
           | None =>
               match fs w1 !! source with
               | Some _ => Undef
               | None => Raise (OSError ENOENT source) w1
               end
           end) w0
      with
      | Ok a w1 => tarfile.close a w1
      | Raise e0 w1 => Raise e0 w1
      | Undef => Undef
      end
    with
    | Ok _ w1 => Ok tt (add_log (DEBUG, "Backup written to " ++ archive) w1)
    | Raise e0 w1 => Raise e0 w1
    | Undef => Undef
    end = Raise e w' -> forall msg, e <> SystemExit msg).
  { intros tar w0 name. destruct (String.eqb source (tarfile.name tar)); [discriminate|].
    destruct (builtins.file_data (fs w0) source); [discriminate|].
    destruct (fs w0 !! source); [discriminate|]. intros [= <- _]. discriminate. }
  destruct (fs w !! archive) as [[| d0 | ms]|].
  - intros [= <- _]. discriminate.
  - intros [= <- _]. discriminate.
  - apply Hadd.
  - unfold builtins.create_error.
    destruct (String.eqb archive ""); [intros [= <- _]; discriminate|].
    destruct (String.eqb (os_path.basename archive) ""); [intros [= <- _]; discriminate|].
    destruct (Str.all_char Str.sep (os_path.dirname archive)); [apply Hadd|].
    destruct (fs w !! os_path.dirname archive) as [[| |]|];
      try (intros [= <- _]; discriminate). apply Hadd.
Qed.

End Mode.

(** X14. The mode matters only when nothing is found. When some candidate is
    a regular file, [file_find] gives the same answer with
    [pass_exception=True] and with [pass_exception=False], and so does
    [load_from_json]. *)
Theorem mode_is_irrelevant_when_found `{Library} (filename : string)
  (preferred_path : option string) (w : world) (p : string) :
  In p (_get_search_paths (env w) preferred_path (Some filename)) ->
  builtins.isfile (fs w) p = true ->
  file_find filename preferred_path true w = file_find filename preferred_path false w
  /\ load_from_json filename preferred_path true w
     = load_from_json filename preferred_path false w.
Proof.
  intros Hin Hfile.
  destruct (first_file (fs w) (_get_search_paths (env w) preferred_path (Some filename)))
    as [q|] eqn:E.
  - assert (Hfind : file_find filename preferred_path true w
                    = file_find filename preferred_path false w).
    { now rewrite !(file_find_found _ _ _ _ _ E). }
    split; [exact Hfind|]. unfold load_from_json, bind. now rewrite Hfind.
  - rewrite (proj1 (first_file_None _ _) E p Hin) in Hfile. discriminate.
Qed.

Lemma mode_is_irrelevant_when_found_witness :
  let w := world_of [("/etc/openstack_deploy/openstack_inventory.json", File (bytes "[1, 2]"))] in
  load_from_json "openstack_inventory.json" (Some "/inv") true w
  = load_from_json "openstack_inventory.json" (Some "/inv") false w.
Proof.
  intros w.
  apply (mode_is_irrelevant_when_found "openstack_inventory.json" (Some "/inv") w
           "/etc/openstack_deploy/openstack_inventory.json").
  - right. now left.
  - reflexivity.
Defined.

(** X15. A missing inventory is never fatal to [load_inventory]: it asks
    [load_from_json] for no exception, so, with a decoder that does not raise
    [SystemExit] itself, [load_inventory] never raises [SystemExit], whatever
    the files. *)
Theorem load_inventory_never_exits `{Library} (preferred_path : option string)
  (default_inv : value) (w w' : world) (e : exn) :
  (forall data msg, json_loads data <> inl (SystemExit msg)) ->
  load_inventory preferred_path default_inv w = Raise e w' ->
  forall msg, e <> SystemExit msg.
Proof.
  intros Hdecoder.
  destruct (first_file (fs w) (_get_search_paths (env w) preferred_path (Some INVENTORY_FILENAME)))
    as [p|] eqn:E.
  - destruct (first_file_Some _ _ _ E) as [_ Hfile].
    apply isfile_file_data in Hfile as [data Hdata].
    pose proof (load_from_json_found _ _ true _ _ _ E Hdata) as Hload.
    destruct (json_loads data) as [e0|j] eqn:Ej.
    + unfold load_inventory, bind. rewrite Hload. intros [= <- _] msg ->.
      exact (Hdecoder data msg Ej).
    + destruct (is_False (fst (alloc j (heap w)))) eqn:EF.
      * apply is_False_alloc in EF. subst j. cbn [alloc fst snd] in Hload.
        rewrite (load_inventory_fallback _ _ _ _ _ Hload).
        unfold bind, logging.debug, modify, copy.deepcopy.
        destruct (copy.deepcopy_memo _ _ _ _) as [[[y memo] h]|]; discriminate.
      * unfold load_inventory. unfold bind at 1. rewrite Hload, EF.
        cbn [negb format1 builtins.str]. unfold ret at 1. unfold bind at 1.
        unfold bind at 1. unfold logging.debug at 1. unfold modify. unfold bind.
        destruct (_make_backup preferred_path (VStr p) _) as [[] w2 | e2 w2 |] eqn:Eb;
          try discriminate.
        intros [= <- _]. exact (make_backup_no_exit _ _ _ _ _ Eb).
  - rewrite (load_inventory_fallback _ _ _ _ _ (load_from_json_missing _ _ _ E)).
    unfold bind, logging.debug, modify, copy.deepcopy.
    destruct (copy.deepcopy_memo _ _ _ _) as [[[y memo] h]|]; discriminate.
Qed.

Lemma load_inventory_never_exits_witness :
  let w := world_of [("/etc/openstack_deploy", Dir);
                     ("/etc/openstack_deploy/openstack_inventory.json", File (bytes "{}"))] in
  exists e w',
    load_inventory None VNone w = Raise e w' /\ forall msg, e <> SystemExit msg.
Proof.
  intros w. eexists _, _. split; [reflexivity|].
  eapply (load_inventory_never_exits None VNone w); [|reflexivity].
  intros data msg. unfold json_loads, library, loads.
  destruct (parse_value _ _) as [[j rest]|]; [|discriminate].
  destruct (skip_ws rest); discriminate.
Defined.
